(** * dnsperf: a shallow embedding of [dnsperf.py]

    The script is one straight-line module: a measurement loop filling the
    nested dictionary [results], an overall statistics pass, a per-domain
    breakdown, a ranking pass and a final verdict.  Each of these is embedded
    below under the name the script gives it.

    Numbers.  A latency is a Python float.  Finite floats are modelled by
    their exact rational value ([Qc], rationals in lowest terms, so that
    equality is Leibniz equality), and the two special values the script
    builds with [float('nan')] and [float('inf')] are separate constructors
    of [pyfloat] with the IEEE comparison rules.  Rounding of the arithmetic
    is not modelled; the square root taken by [statistics.stdev] is a
    parameter of the development, constrained only to be exact on squares. *)

From Stdlib Require Import List String Ascii Bool Arith ZArith Lia.
From Stdlib Require Import QArith Qcanon Qabs Zdivisibility.
From Stdlib Require Import DecimalString.
From Stdlib Require Import Permutation Sorted.
Import ListNotations.

Set Implicit Arguments.
Local Open Scope string_scope.
Local Open Scope list_scope.

(* ------------------------------------------------------------------ *)
(** ** Python floats *)

Module PyFloat.

Inductive pyfloat : Type :=
| Fin (q : Qc)   (* a finite float *)
| PInf           (* float('inf') *)
| NaN.           (* float('nan') *)

Definition Qcltb (x y : Qc) : bool := negb (Qle_bool y x).
Definition Qceqb (x y : Qc) : bool := Qeq_bool x y.

(** [a < b] on floats: every comparison with NaN is false. *)
Definition flt (a b : pyfloat) : bool :=
  match a, b with
  | Fin x, Fin y => Qcltb x y
  | Fin _, PInf => true
  | _, _ => false
  end.

(** [a == b] on floats. *)
Definition feq (a b : pyfloat) : bool :=
  match a, b with
  | Fin x, Fin y => Qceqb x y
  | PInf, PInf => true
  | _, _ => false
  end.

(** [a != b] on floats. *)
Definition fne (a b : pyfloat) : bool := negb (feq a b).

(** [a <= b], used only to state sortedness. *)
Definition fle (a b : pyfloat) : bool :=
  match a, b with
  | Fin x, Fin y => Qle_bool x y
  | Fin _, PInf => true
  | PInf, PInf => true
  | _, _ => false
  end.

Definition is_nan (a : pyfloat) : bool :=
  match a with NaN => true | _ => false end.

(** *** The format specification [.2f] *)

(** Nearest integer to a non-negative rational, ties to the even neighbour. *)
Definition round_half_even (q : Q) : Z :=
  let n := Qnum q in
  let d := Zpos (Qden q) in
  let fl := (n / d)%Z in
  let r := (n mod d)%Z in
  if (2 * r <? d)%Z then fl
  else if (d <? 2 * r)%Z then (fl + 1)%Z
  else if Z.even fl then fl else (fl + 1)%Z.

Definition str_of_N (n : N) : string :=
  NilZero.string_of_uint (N.to_uint n).

Definition digit_char (z : Z) : ascii :=
  ascii_of_nat (48 + Z.to_nat z).

(** [format(x, '.2f')] *)
Definition fmt2 (x : pyfloat) : string :=
  match x with
  | NaN => "nan"
  | PInf => "inf"
  | Fin q =>
      let c := round_half_even (Qabs q * 100) in
      let sign := if Qcltb q 0 then "-" else "" in
      (sign ++ str_of_N (Z.to_N (c / 100)) ++ "."
            ++ String (digit_char ((c mod 100) / 10))
                 (String (digit_char (c mod 10)) EmptyString))%string
  end.

End PyFloat.
Export PyFloat.

(* ------------------------------------------------------------------ *)
(** ** Python dictionaries

    A [dict] keeps its keys in insertion order, and the script iterates
    [resolvers], [overall_stats] and [ranking_stats] in that order, so a
    dictionary is an association list without repeated keys.  Assigning to a
    key that is present replaces the value in place; a new key goes last. *)

Module Dict.

Definition pydict (V : Type) : Type := list (string * V).

Fixpoint dict_get {V} (k : string) (d : pydict V) : option V :=
  match d with
  | [] => None
  | (k', v) :: d' => if String.eqb k k' then Some v else dict_get k d'
  end.

Fixpoint dict_set {V} (k : string) (v : V) (d : pydict V) : pydict V :=
  match d with
  | [] => [(k, v)]
  | (k', v') :: d' =>
      if String.eqb k k' then (k, v) :: d' else (k', v') :: dict_set k v d'
  end.

Definition keys {V} (d : pydict V) : list string := map fst d.

(** The well-formedness of a dictionary: no key occurs twice. *)
Definition dict_wf {V} (d : pydict V) : Prop := NoDup (keys d).

End Dict.
Export Dict.

(* ------------------------------------------------------------------ *)
(** ** Exceptions

    A computation that may raise returns [Exn e] ([e] is the text of the
    exception) instead of a value. *)

Module Result.

Inductive result (A : Type) : Type :=
| Ok (a : A)
| Exn (e : string).
Arguments Ok {A} a.
Arguments Exn {A} e.

Definition rbind {A B} (m : result A) (f : A -> result B) : result B :=
  match m with
  | Ok a => f a
  | Exn e => Exn e
  end.

(** [d[k]], raising [KeyError] when [k] is absent. *)
Definition lookup {V} (k : string) (d : pydict V) : result V :=
  match dict_get k d with
  | Some v => Ok v
  | None => Exn ("KeyError: " ++ k)%string
  end.

End Result.
Export Result.

Notation "x <- m ;; k" := (rbind m (fun x => k))
  (at level 61, m at next level, right associativity).

(* ------------------------------------------------------------------ *)
(** ** The configuration of the script (lines 22-46) *)

Definition resolvers : pydict string :=
  [ ("Google 8.8.8.8", "8.8.8.8");
    ("Google 8.8.4.4", "8.8.4.4");
    ("Cloudflare 1.1.1.1", "1.1.1.1");
    ("Cloudflare 1.0.0.1", "1.0.0.1");
    ("Quad9 9.9.9.9", "9.9.9.9");
    ("OpenDNS 208.67.222.222", "208.67.222.222");
    ("OpenDNS 208.67.220.220", "208.67.220.220");
    ("Verisign 64.6.64.6", "64.6.64.6");
    ("Verisign 64.6.65.6", "64.6.65.6") ].

Definition domains : list string :=
  [ "google.com"; "facebook.com"; "youtube.com"; "twitter.com"; "amazon.com";
    "wikipedia.org"; "reddit.com"; "linkedin.com"; "instagram.com"; "apple.com";
    "microsoft.com"; "netflix.com"; "nytimes.com"; "cnn.com"; "bbc.com";
    "paypal.com"; "espn.com"; "stackoverflow.com"; "github.com"; "bitbucket.org";
    "tumblr.com"; "dropbox.com"; "bing.com"; "wordpress.com"; "blogspot.com";
    "quora.com"; "ebay.com"; "imdb.com"; "pinterest.com"; "whatsapp.com";
    "vimeo.com" ].

Definition num_trials : nat := 3.

(* ------------------------------------------------------------------ *)
(** ** Samples and the results table *)

(** One entry of [results[resolver][domain]]: the elapsed milliseconds, or
    [None] for a query that raised. *)
Definition sample : Type := option Qc.

(** [results]: resolver name -> domain -> samples. *)
Definition results_table : Type := pydict (pydict (list sample)).

(** The filter of lines 83 and 109: [t is not None and t > 0]. *)
Definition is_valid (t : sample) : bool :=
  match t with
  | Some x => Qcltb 0 x
  | None => false
  end.

(** [[t for t in samples if t is not None and t > 0]] *)
Fixpoint valid_times (samples : list sample) : list Qc :=
  match samples with
  | [] => []
  | Some x :: rest =>
      if Qcltb 0 x then x :: valid_times rest else valid_times rest
  | None :: rest => valid_times rest
  end.

(** The dictionary stored in [overall_stats[resolver_name]] (lines 92-98). *)
Record stats : Type := mk_stats {
  avg : pyfloat;
  min : pyfloat;
  max : pyfloat;
  std : pyfloat;
  count : nat
}.

(* ------------------------------------------------------------------ *)
(** ** The library functions the script calls *)

Module PyLib.

Definition Qc_of_nat (n : nat) : Qc := Q2Qc (inject_Z (Z.of_nat n)).

(** [sum] of exact values. *)
Definition py_sum (l : list Qc) : Qc := fold_left Qcplus l (Q2Qc 0).

(** [statistics.mean]: raises [StatisticsError] on no data. *)
Definition py_mean (l : list Qc) : result Qc :=
  match l with
  | [] => Exn "StatisticsError: mean requires at least one data point"
  | _ => Ok (py_sum l / Qc_of_nat (List.length l))%Qc
  end.

(** [min]: keeps the first of the smallest items; [ValueError] on []. *)
Definition py_min (l : list Qc) : result Qc :=
  match l with
  | [] => Exn "ValueError: min() arg is an empty sequence"
  | x :: xs => Ok (fold_left (fun m y => if Qcltb y m then y else m) xs x)
  end.

(** [max]: keeps the first of the largest items; [ValueError] on []. *)
Definition py_max (l : list Qc) : result Qc :=
  match l with
  | [] => Exn "ValueError: max() arg is an empty sequence"
  | x :: xs => Ok (fold_left (fun m y => if Qcltb m y then y else m) xs x)
  end.

(** [statistics.stdev]: the library accumulates the exact sums [sx] of the
    data and [sxx] of their squares, takes [(n*sxx - sx*sx) / n] as the sum
    of squared deviations, divides by [n - 1] and takes the square root
    [fsqrt].  It raises [StatisticsError] on fewer than two points. *)
Definition py_stdev (fsqrt : Qc -> Qc) (l : list Qc) : result Qc :=
  let n := List.length l in
  if (n <? 2)%nat
  then Exn "StatisticsError: stdev requires at least two data points"
  else
    let sx := py_sum l in
    let sxx := py_sum (map (fun x => x * x)%Qc l) in
    let ssd := ((Qc_of_nat n * sxx - sx * sx) / Qc_of_nat n)%Qc in
    Ok (fsqrt (ssd / Qc_of_nat (n - 1))%Qc).

(** [sorted(items, key=key)]: a stable sort, ascending for [<] on the keys.
    An item is placed before the first item of the sorted rest whose key is
    not smaller than its own, so equal keys keep their order. *)
Fixpoint insert_by {A} (key : A -> pyfloat) (x : A) (l : list A) : list A :=
  match l with
  | [] => [x]
  | y :: l' =>
      if flt (key y) (key x) then y :: insert_by key x l' else x :: y :: l'
  end.

Fixpoint py_sorted {A} (key : A -> pyfloat) (l : list A) : list A :=
  match l with
  | [] => []
  | x :: l' => insert_by key x (py_sorted key l')
  end.

(** [enumerate(l, start)] *)
Fixpoint enumerate {A} (start : nat) (l : list A) : list (nat * A) :=
  match l with
  | [] => []
  | x :: l' => (start, x) :: enumerate (S start) l'
  end.

End PyLib.
Export PyLib.

(* ------------------------------------------------------------------ *)
(** ** The network and the measurement loop (lines 49-73) *)

(** What one timed query does: it answers between two readings of the
    monotonic clock (in seconds), or it raises. *)
Inductive outcome : Type :=
| Answered (t_start t_end : Qc)
| Raised (e : string).

(** A progress line of the run (lines 68 and 72), under the header line of
    resolver [ev_resolver]: the domain, the trial number and either the
    elapsed time or the text of the exception. *)
Record event : Type := mk_event {
  ev_resolver : string;
  ev_domain : string;
  ev_trial : nat;
  ev_result : result Qc
}.

(** The sample that goes with a progress line. *)
Definition ev_sample (ev : event) : sample :=
  match ev_result ev with
  | Ok elapsed => Some elapsed
  | Exn _ => None
  end.

Definition ev_key (ev : event) : string * string * nat :=
  (ev_resolver ev, ev_domain ev, ev_trial ev).

Definition ev_at (name domain : string) (ev : event) : bool :=
  String.eqb (ev_resolver ev) name && String.eqb (ev_domain ev) domain.

(** The cells of one table line, before they are padded to their columns. *)
Record row : Type := mk_row {
  row_label : string;
  row_avg : string;
  row_min : string;
  row_max : string;
  row_std : string
}.

Definition NA : string := "N/A".

Definition no_data_message : string :=
  String "010" "No valid DNS resolution data was collected. Check your network or resolver configurations.".

Definition verdict_message (best_resolver : string) (best_avg : pyfloat) : string :=
  (String "010" "Final Verdict: The fastest DNS resolver is '"
    ++ best_resolver
    ++ "' with an average resolution time of " ++ fmt2 best_avg
    ++ " ms (cached values excluded).")%string.

(** Everything the reporting part of the script computes and prints. *)
Record report_out : Type := mk_report {
  rep_overall_stats : pydict stats;
  rep_overall_rows : list row;
  rep_breakdown : list (string * list row);
  rep_ranking_stats : pydict pyfloat;
  rep_sorted_resolvers : list (string * pyfloat);
  rep_ranking_rows : list (nat * row);
  rep_verdict : string
}.

Section Dnsperf.

(** The square root used by [statistics.stdev]. *)
Variable fsqrt : Qc -> Qc.

(** The network, as seen by the script: a query to the server at [ip] for
    [domain] gives an outcome and changes the state of the world. *)
Variable World : Type.
Variable resolve : World -> string -> string -> outcome * World.

(** The state of the run: the world, the dictionary [results] and the
    progress lines printed so far. *)
Record state : Type := mk_state {
  st_world : World;
  st_results : results_table;
  st_log : list event
}.

(** Statements: they change the state and may raise. *)
Definition M (A : Type) : Type := state -> result A * state.

Definition ret {A} (a : A) : M A := fun s => (Ok a, s).

Definition bind {A B} (m : M A) (f : A -> M B) : M B :=
  fun s =>
    match m s with
    | (Ok a, s') => f a s'
    | (Exn e, s') => (Exn e, s')
    end.

Definition seq_ {B} (m : M unit) (k : M B) : M B := bind m (fun _ => k).

(** [try: body  except Exception as e: handler e]: the state changes made
    before the exception are kept. *)
Definition try_except {A} (body : M A) (handler : string -> M A) : M A :=
  fun s =>
    match body s with
    | (Ok a, s') => (Ok a, s')
    | (Exn e, s') => handler e s'
    end.

(** [for x in l: body x] *)
Fixpoint for_each {A} (l : list A) (body : A -> M unit) : M unit :=
  match l with
  | [] => ret tt
  | x :: l' => seq_ (body x) (for_each l' body)
  end.

(** [results[resolver_name] = {}] (line 53) *)
Definition set_resolver (resolver_name : string) : M unit :=
  fun s =>
    (Ok tt, mk_state (st_world s)
                     (dict_set resolver_name [] (st_results s))
                     (st_log s)).

(** [results[resolver_name][domain] = value]: the inner dictionary is the
    object stored under [resolver_name], updated in place. *)
Definition set_samples (resolver_name domain : string) (value : list sample)
  : M unit :=
  fun s =>
    match lookup resolver_name (st_results s) with
    | Exn e => (Exn e, s)
    | Ok inner =>
        (Ok tt, mk_state (st_world s)
                  (dict_set resolver_name (dict_set domain value inner)
                            (st_results s))
                  (st_log s))
    end.

(** [results[resolver_name][domain].append(x)] (lines 67 and 71) *)
Definition append_sample (resolver_name domain : string) (x : sample)
  : M unit :=
  fun s =>
    match lookup resolver_name (st_results s) with
    | Exn e => (Exn e, s)
    | Ok inner =>
        match lookup domain inner with
        | Exn e => (Exn e, s)
        | Ok l =>
            (Ok tt, mk_state (st_world s)
                      (dict_set resolver_name
                                (dict_set domain (l ++ [x]) inner)
                                (st_results s))
                      (st_log s))
        end
    end.

Definition print (ev : event) : M unit :=
  fun s => (Ok tt, mk_state (st_world s) (st_results s) (st_log s ++ [ev])).

(** Lines 62-66: the timed query; [elapsed = (end - start) * 1000.0]. *)
Definition timed_resolve (resolver_ip domain : string) : M Qc :=
  fun s =>
    let (o, w) := resolve (st_world s) resolver_ip domain in
    let s' := mk_state w (st_results s) (st_log s) in
    match o with
    | Answered t_start t_end =>
        (Ok ((t_end - t_start) * Q2Qc 1000)%Qc, s')
    | Raised e => (Exn e, s')
    end.

(** Lines 58-72: the body of the trial loop. *)
Definition trial_body (resolver_name resolver_ip domain : string) (trial : nat)
  : M unit :=
  try_except
    (bind (timed_resolve resolver_ip domain) (fun elapsed =>
     seq_ (append_sample resolver_name domain (Some elapsed))
          (print (mk_event resolver_name domain trial (Ok elapsed)))))
    (fun e =>
     seq_ (append_sample resolver_name domain None)
          (print (mk_event resolver_name domain trial (Exn e)))).

(** Lines 55-72: the body of the domain loop. *)
Definition domain_body (resolver_name resolver_ip : string) (trials : nat)
  (domain : string) : M unit :=
  seq_ (set_samples resolver_name domain [])
       (for_each (seq 1 trials)
                 (trial_body resolver_name resolver_ip domain)).

(** Lines 52-73. *)
Definition run_benchmark (rs : pydict string) (ds : list string)
  (trials : nat) : M unit :=
  for_each rs (fun item =>
    let (resolver_name, resolver_ip) := item in
    seq_ (set_resolver resolver_name)
         (for_each ds (domain_body resolver_name resolver_ip trials))).

(* ------------------------------------------------------------------ *)
(** ** Overall statistics (lines 78-101) *)

(** Lines 85-98, on the list [all_times] built by lines 80-84. *)
Definition stats_of_times (all_times : list Qc) : result stats :=
  match all_times with
  | [] => Ok (mk_stats NaN NaN NaN NaN (List.length all_times))
  | _ :: _ =>
      avg_time <- py_mean all_times ;;
      min_time <- py_min all_times ;;
      max_time <- py_max all_times ;;
      std_dev <- (if (1 <? List.length all_times)%nat
                  then py_stdev fsqrt all_times
                  else Ok (Q2Qc 0)) ;;
      Ok (mk_stats (Fin avg_time) (Fin min_time) (Fin max_time) (Fin std_dev)
                   (List.length all_times))
  end.

(** The statistics of a sequence of samples: the filter of lines 83 and 109
    followed by lines 85-98.  The script has this computation inline. *)
Definition compute_stats (samples : list sample) : result stats :=
  stats_of_times (valid_times samples).

(** Lines 81-84: the inner loops, appending to [all_times]. *)
Fixpoint gather_times (results : results_table) (resolver_name : string)
  (ds : list string) (all_times : list Qc) : result (list Qc) :=
  match ds with
  | [] => Ok all_times
  | domain :: ds' =>
      inner <- lookup resolver_name results ;;
      l <- lookup domain inner ;;
      gather_times results resolver_name ds' (all_times ++ valid_times l)
  end.

(** The cells printed by the format [{:10.2f}] / [.2f] for one [stats]. *)
Definition numeric_row (label : string) (st : stats) : row :=
  mk_row label (fmt2 (avg st)) (fmt2 (min st)) (fmt2 (max st)) (fmt2 (std st)).

(** Lines 79-101: the loop over [resolvers.keys()], with [overall_stats] and
    the printed lines as accumulators. *)
Fixpoint overall_loop (results : results_table) (names ds : list string)
  (overall_stats : pydict stats) (printed : list row)
  : result (pydict stats * list row) :=
  match names with
  | [] => Ok (overall_stats, printed)
  | resolver_name :: names' =>
      all_times <- gather_times results resolver_name ds [] ;;
      st <- stats_of_times all_times ;;
      overall_loop results names' ds
                   (dict_set resolver_name st overall_stats)
                   (printed ++ [numeric_row resolver_name st])
  end.

(* ------------------------------------------------------------------ *)
(** ** Per-domain breakdown (lines 105-117) *)

Definition domain_row (results : results_table) (resolver_name domain : string)
  : result row :=
  inner <- lookup resolver_name results ;;
  l <- lookup domain inner ;;
  let times := valid_times l in
  match times with
  | [] => Ok (mk_row domain NA NA NA NA)
  | _ :: _ =>
      avg_ <- py_mean times ;;
      min_val <- py_min times ;;
      max_val <- py_max times ;;
      std_ <- (if (1 <? List.length times)%nat
               then py_stdev fsqrt times
               else Ok (Q2Qc 0)) ;;
      Ok (mk_row domain (fmt2 (Fin avg_)) (fmt2 (Fin min_val))
                 (fmt2 (Fin max_val)) (fmt2 (Fin std_)))
  end.

(** [for x in l:] with a body that prints one thing. *)
Fixpoint for_rows {A B} (body : A -> result B) (l : list A) : result (list B) :=
  match l with
  | [] => Ok []
  | x :: l' =>
      y <- body x ;;
      ys <- for_rows body l' ;;
      Ok (y :: ys)
  end.

Definition breakdown (results : results_table) (names ds : list string)
  : result (list (string * list row)) :=
  for_rows (fun resolver_name =>
              rows <- for_rows (domain_row results resolver_name) ds ;;
              Ok (resolver_name, rows))
           names.

(* ------------------------------------------------------------------ *)
(** ** Ranking and verdict (lines 121-152) *)

(** Lines 123-126. *)
Definition ranking_key (st : stats) : pyfloat :=
  if (count st =? 0)%nat || fne (avg st) (avg st) then PInf else avg st.

(** Lines 121-126: the loop over [overall_stats.items()]. *)
Definition ranking_stats_of (overall_stats : pydict stats) : pydict pyfloat :=
  fold_left (fun ranking_stats item =>
               dict_set (fst item) (ranking_key (snd item)) ranking_stats)
            overall_stats [].

(** Line 128. *)
Definition sorted_resolvers_of (ranking_stats : pydict pyfloat)
  : list (string * pyfloat) :=
  py_sorted snd ranking_stats.

(** Lines 133-144: one line of the ranking table. *)
Definition ranking_row (overall_stats : pydict stats)
  (item : nat * (string * pyfloat)) : result (nat * row) :=
  let (rank, entry) := item in
  let (resolver_name, _) := entry in
  st <- lookup resolver_name overall_stats ;;
  if feq (avg st) PInf
  then Ok (rank, mk_row resolver_name NA NA NA NA)
  else Ok (rank, numeric_row resolver_name st).

(** Lines 147-152. *)
Definition verdict (overall_stats : pydict stats)
  (sorted_resolvers : list (string * pyfloat)) : result string :=
  match sorted_resolvers with
  | (best_resolver, key) :: _ =>
      if fne key PInf
      then st <- lookup best_resolver overall_stats ;;
           Ok (verdict_message best_resolver (avg st))
      else Ok no_data_message
  | [] => Ok no_data_message
  end.

(** Lines 76-152: everything after the measurement loop. *)
Definition report (results : results_table) (rs : pydict string)
  (ds : list string) : result report_out :=
  ov <- overall_loop results (keys rs) ds [] [] ;;
  bd <- breakdown results (keys rs) ds ;;
  let overall_stats := fst ov in
  let ranking_stats := ranking_stats_of overall_stats in
  let sorted_resolvers := sorted_resolvers_of ranking_stats in
  rows <- for_rows (ranking_row overall_stats) (enumerate 1 sorted_resolvers) ;;
  v <- verdict overall_stats sorted_resolvers ;;
  Ok (mk_report overall_stats (snd ov) bd ranking_stats sorted_resolvers rows v).

(** The whole script, started in world [w]: the table is built first, and the
    report reads the finished table. *)
Definition program (rs : pydict string) (ds : list string) (trials : nat)
  (w : World) : result report_out :=
  let (r, s) := run_benchmark rs ds trials (mk_state w [] []) in
  _ <- r ;;
  report (st_results s) rs ds.

(** The trials of the configured matrix, in the order the loops visit them. *)
Definition matrix (rs : pydict string) (ds : list string) (trials : nat)
  : list (string * string * nat) :=
  flat_map (fun item =>
    flat_map (fun domain =>
      map (fun trial => (fst item, domain, trial)) (seq 1 trials)) ds) rs.

End Dnsperf.

(* ------------------------------------------------------------------ *)
(** ** Concrete instances, used to run the model *)

Module Instance.

(** A square root on the rationals: exact on squares, and otherwise the
    root rounded down to a multiple of [2^-32 / den]. *)
Definition qsqrt (y : Qc) : Qc :=
  let n := Qnum y in
  let d := Qden y in
  let k := (2 ^ 32)%positive in
  Q2Qc (Z.sqrt (n * Zpos d * Zpos (k * k)) # (d * k)).

(** A world that plays back a list of outcomes, one per query, and times
    out once the list is used up. *)
Definition script : Type := list outcome.

Definition play (w : script) (resolver_ip domain : string) : outcome * script :=
  match w with
  | o :: w' => (o, w')
  | [] => (Raised "The DNS operation timed out", [])
  end.

Definition ms (n : Z) (d : positive) : Qc := Q2Qc (n # d).

(** A query answered after [n/d] milliseconds. *)
Definition answer (n : Z) (d : positive) : outcome :=
  Answered (Q2Qc 0) (Q2Qc (n # (d * 1000))).

Definition rs3 : pydict string :=
  [("A", "192.0.2.1"); ("B", "192.0.2.2"); ("C", "192.0.2.3")].

Definition ds2 : list string := ["x.example"; "y.example"].

(** Resolver A never answers, B answers three times out of four, C answers
    three times, once in 0 ms. *)
Definition w12 : script :=
  [ Raised "timeout"; Raised "timeout"; Raised "SERVFAIL"; Raised "timeout";
    answer 30 1; answer 10 1; answer 25 1; Raised "NXDOMAIN";
    answer 5 1; answer 5 1; Raised "timeout"; answer 0 1 ].

(** The table that the run over [w12] builds. *)
Definition table12 : results_table :=
  [ ("A", [("x.example", [None; None]); ("y.example", [None; None])]);
    ("B", [("x.example", [Some (ms 30 1); Some (ms 10 1)]);
           ("y.example", [Some (ms 25 1); None])]);
    ("C", [("x.example", [Some (ms 5 1); Some (ms 5 1)]);
           ("y.example", [None; Some (ms 0 1)])]) ].

End Instance.

(* ------------------------------------------------------------------ *)
(** ** What the claims speak about *)

(** A sample that the filter drops: a failure marker, or a latency that is
    not strictly positive. *)
Definition dropped (t : sample) : Prop :=
  t = None \/ exists x, t = Some x /\ (x <= Q2Qc 0)%Qc.

(** The arithmetic mean of a list of latencies. *)
Definition arithmetic_mean (l : list Qc) : Qc :=
  (fold_right Qcplus (Q2Qc 0) l / Qc_of_nat (List.length l))%Qc.

(** The sample variance: the squared deviations from the mean, summed and
    divided by [n - 1]. *)
Definition sample_variance (l : list Qc) : Qc :=
  let m := arithmetic_mean l in
  (fold_right Qcplus (Q2Qc 0) (map (fun x => (x - m) * (x - m)) l)
   / Qc_of_nat (List.length l - 1))%Qc.

Definition is_minimum (m : Qc) (l : list Qc) : Prop :=
  In m l /\ forall x, In x l -> (m <= x)%Qc.

Definition is_maximum (m : Qc) (l : list Qc) : Prop :=
  In m l /\ forall x, In x l -> (x <= m)%Qc.

(** A square root is exact on squares. *)
Definition exact_on_squares (fsqrt : Qc -> Qc) : Prop :=
  forall x : Qc, (Q2Qc 0 <= x)%Qc -> fsqrt (x * x)%Qc = x.

(** [results[name][domain]], or no samples when a key is missing. *)
Definition samples_at (results : results_table) (name domain : string)
  : list sample :=
  match dict_get name results with
  | Some inner =>
      match dict_get domain inner with
      | Some l => l
      | None => []
      end
  | None => []
  end.

(** Every list that the report reads is in the table. *)
Definition populated (results : results_table) (names ds : list string)
  : Prop :=
  forall name domain, In name names -> In domain ds ->
    exists inner l,
      dict_get name results = Some inner /\ dict_get domain inner = Some l.

(** The valid latencies of a resolver, over all domains. *)
Definition resolver_times (results : results_table) (ds : list string)
  (name : string) : list Qc :=
  flat_map (fun domain => valid_times (samples_at results name domain)) ds.

(** The order of the ranking on the keys of the items. *)
Definition key_le {A} (key : A -> pyfloat) (x y : A) : Prop :=
  fle (key x) (key y) = true.

Definition stats_or_nan (r : result stats) : stats :=
  match r with
  | Ok st => st
  | Exn _ => mk_stats NaN NaN NaN NaN 0
  end.

(** The overall statistics of a resolver. *)
Definition resolver_stats (fsqrt : Qc -> Qc) (results : results_table)
  (ds : list string) (name : string) : stats :=
  stats_or_nan (stats_of_times fsqrt (resolver_times results ds name)).

(** The resolver has no valid sample at all. *)
Definition no_data (results : results_table) (ds : list string)
  (name : string) : bool :=
  match resolver_times results ds name with
  | [] => true
  | _ :: _ => false
  end.

(** What the script makes of the outcome of a query (lines 62-72): the
    elapsed milliseconds, or the exception. *)
Definition outcome_result (o : outcome) : result Qc :=
  match o with
  | Answered t_start t_end => Ok ((t_end - t_start) * Q2Qc 1000)%Qc
  | Raised e => Exn e
  end.

(** The answers of the network to a sequence of queries (server, domain),
    asked one after the other from world [w]. *)
Fixpoint outcomes {World : Type}
  (resolve : World -> string -> string -> outcome * World)
  (w : World) (qs : list (string * string)) : list outcome * World :=
  match qs with
  | [] => ([], w)
  | (ip, domain) :: qs' =>
      let (o, w1) := resolve w ip domain in
      let (os, w2) := outcomes resolve w1 qs' in
      (o :: os, w2)
  end.

(** The queries of the configured matrix, in the order of the loops. *)
Definition queries (rs : pydict string) (ds : list string) (trials : nat)
  : list (string * string) :=
  flat_map (fun item =>
    flat_map (fun domain => repeat (snd item, domain) trials) ds) rs.

(** The trial with key [key] is a trial of resolver [n] on domain [d]. *)
Definition key_at (n d : string) (key : string * string * nat) : bool :=
  String.eqb (fst (fst key)) n && String.eqb (snd (fst key)) d.

(** The line that the breakdown prints for a domain of a resolver (lines
    109-117), read off the table. *)
Definition domain_line (fsqrt : Qc -> Qc) (results : results_table)
  (name domain : string) : row :=
  match valid_times (samples_at results name domain) with
  | [] => mk_row domain NA NA NA NA
  | times =>
      numeric_row domain (stats_or_nan (stats_of_times fsqrt times))
  end.

(* ------------------------------------------------------------------ *)
(** ** The printed table lines (lines 77, 99, 107, 115, 117, 131, 144) *)

Module Render.












End Render.
Export Render.

(* ------------------------------------------------------------------ *)
(** ** Comparisons *)

Lemma Qcltb_lt (x y : Qc) : Qcltb x y = true <-> (x < y)%Qc.
Proof.
  unfold Qcltb, Qclt. rewrite negb_true_iff.
  split; intro H.
  - apply Qnot_le_lt. intro Hle. apply Qle_bool_iff in Hle. congruence.
  - destruct (Qle_bool y x) eqn:E; [|reflexivity].
    apply Qle_bool_iff in E. exfalso. exact (Qlt_not_le _ _ H E).
Qed.

Lemma Qcltb_ge (x y : Qc) : Qcltb x y = false <-> (y <= x)%Qc.
Proof.
  unfold Qcltb, Qcle. rewrite negb_false_iff. apply Qle_bool_iff.
Qed.

Lemma Qceqb_eq (x y : Qc) : Qceqb x y = true <-> x = y.
Proof.
  unfold Qceqb. rewrite Qeq_bool_iff. split.
  - apply Qc_is_canon.
  - intros ->. reflexivity.
Qed.

Lemma Qcltb_irrefl (x : Qc) : Qcltb x x = false.
Proof. apply Qcltb_ge. apply Qcle_refl. Qed.

(* ------------------------------------------------------------------ *)
(** ** The filter *)

Lemma valid_times_filter (l : list sample) :
  map Some (valid_times l) = filter is_valid l.
Proof.
  induction l as [|[x|] l IH]; simpl; auto.
  destruct (Qcltb (Q2Qc 0) x); simpl; rewrite IH; reflexivity.
Qed.

Lemma valid_times_app (l1 l2 : list sample) :
  valid_times (l1 ++ l2) = valid_times l1 ++ valid_times l2.
Proof.
  induction l1 as [|[x|] l1 IH]; simpl; auto.
  destruct (Qcltb (Q2Qc 0) x); simpl; congruence.
Qed.

Lemma dropped_invalid (t : sample) : dropped t <-> is_valid t = false.
Proof.
  unfold dropped. destruct t as [x|]; simpl.
  - rewrite Qcltb_ge. split.
    + intros [H|[y [H Hy]]]; [discriminate|]. now inversion H; subst.
    + intro H. right. exists x. auto.
  - split; auto.
Qed.

Lemma valid_times_dropped (l : list sample) :
  Forall dropped l <-> valid_times l = [].
Proof.
  induction l as [|t l IH]; simpl.
  - split; auto.
  - split.
    + intro H. inversion H as [|? ? Ht Hl]; subst.
      apply dropped_invalid in Ht. apply IH in Hl.
      destruct t as [x|]; simpl in Ht; [rewrite Ht|]; exact Hl.
    + intro H. destruct t as [x|].
      * destruct (Qcltb (Q2Qc 0) x) eqn:E; [discriminate|].
        constructor; [apply dropped_invalid; exact E | now apply IH].
      * constructor; [now left | now apply IH].
Qed.

Lemma valid_times_positive (l : list sample) (x : Qc) :
  In x (valid_times l) <-> In (Some x) l /\ (Q2Qc 0 < x)%Qc.
Proof.
  induction l as [|[y|] l IH]; simpl.
  - tauto.
  - destruct (Qcltb (Q2Qc 0) y) eqn:E; simpl; rewrite IH.
    + apply Qcltb_lt in E. split.
      * intros [->|[H1 H2]]; auto.
      * intros [[H|H] H2]; [left; congruence | right; auto].
    + apply Qcltb_ge in E. split.
      * intros [H1 H2]; auto.
      * intros [[H|H] H2]; [|auto].
        inversion H; subst. exfalso. exact (Qclt_not_le _ _ H2 E).
  - rewrite IH. split.
    + intros [H1 H2]; auto.
    + intros [[H|H] H2]; [discriminate | auto].
Qed.
(* ------------------------------------------------------------------ *)
(** ** The library functions *)

Lemma this_Q2Qc (q : Q) : (this (Q2Qc q) == q)%Q.
Proof. apply Qred_correct. Qed.

Lemma Qc_of_nat_S (n : nat) : Qc_of_nat (S n) = (Qc_of_nat n + Q2Qc 1)%Qc.
Proof.
  apply Qc_is_canon. unfold Qc_of_nat, Qcplus.
  rewrite !this_Q2Qc. rewrite Nat2Z.inj_succ. unfold Z.succ.
  rewrite inject_Z_plus. reflexivity.
Qed.

Lemma Qc_of_nat_pos (n : nat) : (0 < n)%nat -> (Q2Qc 0 < Qc_of_nat n)%Qc.
Proof.
  intro H. unfold Qclt, Qc_of_nat. rewrite !this_Q2Qc.
  unfold Qlt. simpl. lia.
Qed.

Lemma Qc_of_nat_neq0 (n : nat) : (0 < n)%nat -> Qc_of_nat n <> Q2Qc 0.
Proof.
  intros H E. apply Qc_of_nat_pos in H. rewrite E in H.
  exact (Qclt_not_le _ _ H (Qcle_refl _)).
Qed.

Lemma fold_left_Qcplus (l : list Qc) (a : Qc) :
  fold_left Qcplus l a = (a + fold_right Qcplus (Q2Qc 0) l)%Qc.
Proof.
  revert a. induction l as [|x l IH]; intro a; simpl.
  - ring.
  - rewrite IH. ring.
Qed.

Lemma py_sum_fold_right (l : list Qc) :
  py_sum l = fold_right Qcplus (Q2Qc 0) l.
Proof. unfold py_sum. rewrite fold_left_Qcplus. ring. Qed.

Lemma py_mean_arithmetic (l : list Qc) :
  l <> [] -> py_mean l = Ok (arithmetic_mean l).
Proof.
  intro H. destruct l as [|x l]; [congruence|].
  unfold py_mean, arithmetic_mean. rewrite py_sum_fold_right. reflexivity.
Qed.

Lemma fold_min_spec (xs : list Qc) (x : Qc) :
  is_minimum (fold_left (fun m y => if Qcltb y m then y else m) xs x) (x :: xs).
Proof.
  revert x. induction xs as [|y xs IH]; intro x; simpl.
  - split; [now left|]. intros z [->|[]]. apply Qcle_refl.
  - destruct (Qcltb y x) eqn:E.
    + destruct (IH y) as [Hin Hle]. apply Qcltb_lt in E. split.
      * right. exact Hin.
      * intros z [<-|Hz]; [|now apply Hle].
        apply Qcle_trans with y; [apply Hle; now left | now apply Qclt_le_weak].
    + destruct (IH x) as [Hin Hle]. apply Qcltb_ge in E. split.
      * destruct Hin as [<-|Hin]; [now left | right; now right].
      * intros z [<-|[<-|Hz]].
        -- apply Hle. now left.
        -- apply Qcle_trans with x; [apply Hle; now left | exact E].
        -- apply Hle. now right.
Qed.

Lemma fold_max_spec (xs : list Qc) (x : Qc) :
  is_maximum (fold_left (fun m y => if Qcltb m y then y else m) xs x) (x :: xs).
Proof.
  revert x. induction xs as [|y xs IH]; intro x; simpl.
  - split; [now left|]. intros z [->|[]]. apply Qcle_refl.
  - destruct (Qcltb x y) eqn:E.
    + destruct (IH y) as [Hin Hle]. apply Qcltb_lt in E. split.
      * right. exact Hin.
      * intros z [<-|Hz]; [|now apply Hle].
        apply Qcle_trans with y; [now apply Qclt_le_weak | apply Hle; now left].
    + destruct (IH x) as [Hin Hle]. apply Qcltb_ge in E. split.
      * destruct Hin as [<-|Hin]; [now left | right; now right].
      * intros z [<-|[<-|Hz]].
        -- apply Hle. now left.
        -- apply Qcle_trans with x; [exact E | apply Hle; now left].
        -- apply Hle. now right.
Qed.

Lemma py_min_spec (l : list Qc) :
  l <> [] -> exists m, py_min l = Ok m /\ is_minimum m l.
Proof.
  destruct l as [|x xs]; [congruence|]. intros _.
  eexists. split; [reflexivity | apply fold_min_spec].
Qed.

Lemma py_max_spec (l : list Qc) :
  l <> [] -> exists m, py_max l = Ok m /\ is_maximum m l.
Proof.
  destruct l as [|x xs]; [congruence|]. intros _.
  eexists. split; [reflexivity | apply fold_max_spec].
Qed.

(** The squared deviations from any centre [c], expanded. *)
Lemma sum_sq_dev (l : list Qc) (c : Qc) :
  fold_right Qcplus (Q2Qc 0) (map (fun x => (x - c) * (x - c))%Qc l)
  = (fold_right Qcplus (Q2Qc 0) (map (fun x => x * x)%Qc l)
     - (Q2Qc 1 + Q2Qc 1) * c * fold_right Qcplus (Q2Qc 0) l
     + Qc_of_nat (List.length l) * c * c)%Qc.
Proof.
  induction l as [|x l IH].
  - simpl. change (Qc_of_nat 0) with (Q2Qc 0). ring.
  - cbn [map fold_right List.length]. rewrite IH, Qc_of_nat_S. ring.
Qed.

(** The sum the library computes is the sum of the squared deviations from
    the mean. *)
Lemma ssd_is_sum_sq_dev (l : list Qc) :
  l <> [] ->
  ((Qc_of_nat (List.length l) * py_sum (map (fun x => x * x)%Qc l)
    - py_sum l * py_sum l) / Qc_of_nat (List.length l))%Qc
  = fold_right Qcplus (Q2Qc 0)
      (map (fun x => (x - arithmetic_mean l) * (x - arithmetic_mean l))%Qc l).
Proof.
  intro H. rewrite sum_sq_dev. rewrite !py_sum_fold_right.
  unfold arithmetic_mean.
  assert (Hn : Qc_of_nat (List.length l) <> Q2Qc 0).
  { apply Qc_of_nat_neq0. destruct l; [congruence | simpl; lia]. }
  field. exact Hn.
Qed.

Lemma py_stdev_variance (fsqrt : Qc -> Qc) (l : list Qc) :
  (2 <= List.length l)%nat ->
  py_stdev fsqrt l = Ok (fsqrt (sample_variance l)).
Proof.
  intro H. unfold py_stdev.
  destruct (List.length l <? 2)%nat eqn:E.
  - apply Nat.ltb_lt in E. lia.
  - unfold sample_variance. rewrite ssd_is_sum_sq_dev; [reflexivity|].
    destruct l; [simpl in H; lia | congruence].
Qed.
(* ------------------------------------------------------------------ *)
(** ** Lines 85-98 *)

Ltac qc_eq := apply Qc_is_canon; vm_compute; reflexivity.

Lemma stats_of_times_nil (fsqrt : Qc -> Qc) :
  stats_of_times fsqrt [] = Ok (mk_stats NaN NaN NaN NaN 0).
Proof. reflexivity. Qed.

Lemma stats_of_times_cons (fsqrt : Qc -> Qc) (l : list Qc) :
  l <> [] ->
  exists mn mx sd,
    stats_of_times fsqrt l
    = Ok (mk_stats (Fin (arithmetic_mean l)) (Fin mn) (Fin mx) (Fin sd)
                   (List.length l))
    /\ is_minimum mn l /\ is_maximum mx l
    /\ (List.length l = 1%nat -> sd = Q2Qc 0)
    /\ ((2 <= List.length l)%nat -> sd = fsqrt (sample_variance l)).
Proof.
  intro H.
  destruct (py_min_spec H) as [mn [Emn Hmn]].
  destruct (py_max_spec H) as [mx [Emx Hmx]].
  pose proof (py_mean_arithmetic H) as Eavg.
  destruct l as [|x l]; [congruence|].
  unfold stats_of_times. rewrite Eavg, Emn, Emx. cbn [rbind].
  destruct (1 <? List.length (x :: l))%nat eqn:E.
  - apply Nat.ltb_lt in E.
    rewrite (py_stdev_variance fsqrt (x :: l)) by lia. cbn [rbind].
    exists mn, mx, (fsqrt (sample_variance (x :: l))).
    repeat split; try apply Hmn; try apply Hmx; intros; try reflexivity; lia.
  - apply Nat.ltb_ge in E. cbn [rbind].
    exists mn, mx, (Q2Qc 0).
    repeat split; try apply Hmn; try apply Hmx; intros; try reflexivity; lia.
Qed.

(** Lines 85-98 never raise. *)
Lemma stats_of_times_total (fsqrt : Qc -> Qc) (l : list Qc) :
  exists st, stats_of_times fsqrt l = Ok st.
Proof.
  destruct l as [|x l].
  - eexists. reflexivity.
  - destruct (@stats_of_times_cons fsqrt (x :: l)) as (mn & mx & sd & E & _);
      [congruence|]. eexists. exact E.
Qed.

Lemma stats_count (fsqrt : Qc -> Qc) (l : list Qc) (st : stats) :
  stats_of_times fsqrt l = Ok st -> count st = List.length l.
Proof.
  destruct l as [|x l]; intro H.
  - inversion H. reflexivity.
  - destruct (@stats_of_times_cons fsqrt (x :: l)) as (mn & mx & sd & E & _);
      [congruence|]. rewrite E in H. inversion H. reflexivity.
Qed.

Lemma stats_avg (fsqrt : Qc -> Qc) (l : list Qc) (st : stats) :
  stats_of_times fsqrt l = Ok st ->
  (l = [] /\ st = mk_stats NaN NaN NaN NaN 0)
  \/ (l <> [] /\ avg st = Fin (arithmetic_mean l)).
Proof.
  destruct l as [|x l]; intro H.
  - left. inversion H. auto.
  - right. split; [congruence|].
    destruct (@stats_of_times_cons fsqrt (x :: l)) as (mn & mx & sd & E & _);
      [congruence|]. rewrite E in H. inversion H. reflexivity.
Qed.

Lemma arithmetic_mean_single (v : Qc) : arithmetic_mean [v] = v.
Proof.
  unfold arithmetic_mean. simpl fold_right. simpl List.length.
  change (Qc_of_nat 1) with (Q2Qc 1). field. discriminate.
Qed.

Lemma is_minimum_single (m v : Qc) : is_minimum m [v] -> m = v.
Proof. intros [[H|[]] _]. auto. Qed.

Lemma is_maximum_single (m v : Qc) : is_maximum m [v] -> m = v.
Proof. intros [[H|[]] _]. auto. Qed.

Lemma stats_of_times_single (fsqrt : Qc -> Qc) (v : Qc) :
  stats_of_times fsqrt [v]
  = Ok (mk_stats (Fin v) (Fin v) (Fin v) (Fin (Q2Qc 0)) 1).
Proof.
  destruct (@stats_of_times_cons fsqrt [v]) as (mn & mx & sd & E & Hmn & Hmx & H1 & _);
    [congruence|].
  rewrite E, arithmetic_mean_single.
  rewrite (is_minimum_single Hmn), (is_maximum_single Hmx), (H1 eq_refl).
  reflexivity.
Qed.

(** Lines 109-117 print the statistics of lines 85-98 when there are valid
    samples. *)
Lemma domain_row_stats (fsqrt : Qc -> Qc) (results : results_table)
  (name domain : string) (inner : pydict (list sample)) (l : list sample)
  (st : stats) :
  dict_get name results = Some inner -> dict_get domain inner = Some l ->
  valid_times l <> [] -> stats_of_times fsqrt (valid_times l) = Ok st ->
  domain_row fsqrt results name domain = Ok (numeric_row domain st).
Proof.
  intros Hn Hd Hne Hst. unfold domain_row, lookup. rewrite Hn. cbn [rbind].
  rewrite Hd. cbn [rbind].
  destruct (valid_times l) as [|x times]; [congruence|].
  unfold stats_of_times in Hst.
  destruct (py_mean (x :: times)) as [a|e]; [|discriminate].
  destruct (py_min (x :: times)) as [b|e]; [|discriminate].
  destruct (py_max (x :: times)) as [c|e]; [|discriminate].
  cbn [rbind] in *.
  destruct (if (1 <? List.length (x :: times))%nat
            then py_stdev fsqrt (x :: times) else Ok (Q2Qc 0)) as [sd|e];
    [|discriminate].
  cbn [rbind] in *. inversion Hst. reflexivity.
Qed.

(* ------------------------------------------------------------------ *)
(** ** The ranking key (lines 123-126) *)

Lemma fne_self (a : pyfloat) : fne a a = is_nan a.
Proof.
  destruct a as [q| |]; unfold fne; simpl; auto.
  replace (Qceqb q q) with true; [reflexivity|].
  symmetry. now apply Qceqb_eq.
Qed.

Lemma feq_PInf (a : pyfloat) : feq a PInf = true <-> a = PInf.
Proof. destruct a; simpl; split; congruence. Qed.

Lemma stats_nan_count (fsqrt : Qc -> Qc) (l : list Qc) (st : stats) :
  stats_of_times fsqrt l = Ok st ->
  (avg st = NaN <-> count st = 0%nat)
  /\ (avg st <> PInf)
  /\ (count st =? 0)%nat = fne (avg st) (avg st).
Proof.
  intro H. pose proof (stats_count _ _ H) as Hc.
  destruct (stats_avg _ _ H) as [[-> ->]|[Hl Ha]].
  - simpl. repeat split; auto; discriminate.
  - rewrite Ha, fne_self, Hc. destruct l as [|x l]; [congruence|]. simpl.
    repeat split; try discriminate.
Qed.

Lemma ranking_key_PInf (fsqrt : Qc -> Qc) (l : list Qc) (st : stats) :
  stats_of_times fsqrt l = Ok st ->
  (l = [] -> ranking_key st = PInf)
  /\ (l <> [] -> ranking_key st = Fin (arithmetic_mean l)).
Proof.
  intro H. pose proof (stats_count _ _ H) as Hc.
  destruct (stats_avg _ _ H) as [[-> ->]|[Hl Ha]].
  - split; [reflexivity | congruence].
  - split; [congruence|]. intros _. unfold ranking_key.
    rewrite Ha, fne_self, Hc. destruct l as [|x l]; [congruence|]. reflexivity.
Qed.
(* ------------------------------------------------------------------ *)
(** ** The square root of the instance *)

Lemma Qc_square_this (x : Qc) :
  this (x * x)%Qc = (Qnum x * Qnum x # Qden x * Qden x).
Proof.
  destruct x as [[n d] Hc]. unfold Qcmult, Q2Qc. cbn [this Qnum Qden].
  apply Qred_identity. cbn [Qmult Qnum Qden].
  apply Qred_identity2 in Hc. cbn [Qnum Qden] in Hc.
  fold (Z.coprime n (Z.pos d)) in Hc.
  change (Z.coprime (n * n) (Z.pos (d * d))).
  rewrite Pos2Z.inj_mul.
  apply Z.coprime_mul_r; symmetry; apply Z.coprime_mul_r; symmetry; exact Hc.
Qed.

Lemma qsqrt_exact : exact_on_squares Instance.qsqrt.
Proof.
  intros x Hx. unfold Instance.qsqrt. rewrite Qc_square_this.
  cbn [Qnum Qden]. destruct x as [[n d] Hc]. cbn [this Qnum Qden] in *.
  assert (Hn : (0 <= n)%Z).
  { unfold Qcle, Qle in Hx. cbn in Hx. lia. }
  set (k := (2 ^ 32)%positive).
  replace (n * n * Z.pos (d * d) * Z.pos (k * k))%Z
    with ((n * Z.pos d * Z.pos k) * (n * Z.pos d * Z.pos k))%Z
    by (rewrite !Pos2Z.inj_mul; ring).
  rewrite Z.sqrt_square by lia.
  apply Qc_is_canon. rewrite this_Q2Qc. cbn [this].
  unfold Qeq. cbn [Qnum Qden]. rewrite !Pos2Z.inj_mul. ring.
Qed.

(* ------------------------------------------------------------------ *)
(** ** Claims about [compute_stats] *)

(** C3.  When the filter leaves nothing (every sample is a failure marker
    or is not above 0 ms), the statistics are computed without an exception
    and all four of them are the not-a-number value, none of them 0; the
    per-domain line of such a sequence shows N/A in its four columns. *)
Theorem compute_stats_no_data (fsqrt : Qc -> Qc) (samples : list sample) :
  Forall dropped samples ->
  compute_stats fsqrt samples = Ok (mk_stats NaN NaN NaN NaN 0)
  /\ (forall st, compute_stats fsqrt samples = Ok st ->
        avg st <> Fin (Q2Qc 0) /\ min st <> Fin (Q2Qc 0)
        /\ max st <> Fin (Q2Qc 0) /\ std st <> Fin (Q2Qc 0))
  /\ (forall results name domain inner,
        dict_get name results = Some inner ->
        dict_get domain inner = Some samples ->
        domain_row fsqrt results name domain = Ok (mk_row domain NA NA NA NA)).
Proof.
  intro H. apply valid_times_dropped in H.
  assert (E : compute_stats fsqrt samples = Ok (mk_stats NaN NaN NaN NaN 0)).
  { unfold compute_stats. rewrite H. reflexivity. }
  split; [exact E|]. split.
  - intros st Hst. rewrite E in Hst. inversion Hst; subst. simpl.
    repeat split; discriminate.
  - intros results name domain inner Hn Hd.
    unfold domain_row, lookup. rewrite Hn. cbn [rbind]. rewrite Hd.
    cbn [rbind]. rewrite H. reflexivity.
Qed.

Lemma compute_stats_no_data_witness :
  compute_stats Instance.qsqrt [Some (Q2Qc 0); None; Some (Q2Qc (-3 # 2))]
  = Ok (mk_stats NaN NaN NaN NaN 0).
Proof.
  refine (proj1 (@compute_stats_no_data Instance.qsqrt
                   [Some (Q2Qc 0); None; Some (Q2Qc (-3 # 2))] _)).
  apply Forall_cons; [|apply Forall_cons; [|apply Forall_cons; [|apply Forall_nil]]].
  - right. exists (Q2Qc 0). split; [reflexivity | vm_compute; discriminate].
  - left. reflexivity.
  - right. exists (Q2Qc (-3 # 2)). split; [reflexivity | vm_compute; discriminate].
Defined.

(** C4.  A sample of exactly 0 ms counts as a failure marker: replacing it by
    the marker, anywhere in a sequence, leaves the statistics unchanged. *)
Theorem compute_stats_zero_as_failure (fsqrt : Qc -> Qc)
  (before after : list sample) :
  compute_stats fsqrt (before ++ Some (Q2Qc 0) :: after)
  = compute_stats fsqrt (before ++ None :: after).
Proof.
  unfold compute_stats. rewrite !valid_times_app. reflexivity.
Qed.

(** C6.  When exactly one sample passes the filter, with value v, the
    average, the minimum and the maximum are v and the standard deviation is
    0, and the per-domain line prints them so; in particular for the
    one-sample sequence [12.5]. *)
Theorem compute_stats_single (fsqrt : Qc -> Qc) :
  (forall (before after : list sample) (v : Qc),
     Forall dropped before -> Forall dropped after -> (Q2Qc 0 < v)%Qc ->
     compute_stats fsqrt (before ++ Some v :: after)
     = Ok (mk_stats (Fin v) (Fin v) (Fin v) (Fin (Q2Qc 0)) 1)
     /\ forall results name domain inner,
          dict_get name results = Some inner ->
          dict_get domain inner = Some (before ++ Some v :: after) ->
          domain_row fsqrt results name domain
          = Ok (mk_row domain (fmt2 (Fin v)) (fmt2 (Fin v)) (fmt2 (Fin v))
                       "0.00"))
  /\ compute_stats fsqrt [Some (Q2Qc (25 # 2))]
     = Ok (mk_stats (Fin (Q2Qc (25 # 2))) (Fin (Q2Qc (25 # 2)))
                    (Fin (Q2Qc (25 # 2))) (Fin (Q2Qc 0)) 1).
Proof.
  assert (G : forall (before after : list sample) (v : Qc),
     Forall dropped before -> Forall dropped after -> (Q2Qc 0 < v)%Qc ->
     valid_times (before ++ Some v :: after) = [v]).
  { intros before after v Hb Ha Hv.
    apply valid_times_dropped in Hb, Ha. apply Qcltb_lt in Hv.
    rewrite valid_times_app. cbn [valid_times]. rewrite Hb, Ha, Hv.
    reflexivity. }
  split.
  - intros before after v Hb Ha Hv. pose proof (G _ _ _ Hb Ha Hv) as E.
    split.
    + unfold compute_stats. rewrite E. apply stats_of_times_single.
    + intros results name domain inner Hn Hd.
      rewrite (@domain_row_stats fsqrt results name domain inner _
                 (mk_stats (Fin v) (Fin v) (Fin v) (Fin (Q2Qc 0)) 1) Hn Hd).
      * reflexivity.
      * rewrite E. discriminate.
      * rewrite E. apply stats_of_times_single.
  - assert (E : valid_times ([] ++ Some (Q2Qc (25 # 2)) :: [])
                 = [Q2Qc (25 # 2)]).
    { apply G; [constructor | constructor | vm_compute; reflexivity]. }
    unfold compute_stats. cbn [app] in E. rewrite E.
    apply stats_of_times_single.
Qed.

(** C5.  When at least two samples pass the filter, the statistics are the
    arithmetic mean, the least and the greatest of the filtered samples and
    the square root of their sample variance (divisor n-1); on
    [10.0, 20.0, 30.0] they are 20.0, 10.0, 30.0 and 10.0. *)
Theorem compute_stats_many (fsqrt : Qc -> Qc) :
  (forall samples : list sample,
     (2 <= List.length (valid_times samples))%nat ->
     exists mn mx,
       compute_stats fsqrt samples
       = Ok (mk_stats (Fin (arithmetic_mean (valid_times samples)))
                      (Fin mn) (Fin mx)
                      (Fin (fsqrt (sample_variance (valid_times samples))))
                      (List.length (valid_times samples)))
       /\ is_minimum mn (valid_times samples)
       /\ is_maximum mx (valid_times samples))
  /\ (exact_on_squares fsqrt ->
      compute_stats fsqrt [Some (Q2Qc 10); Some (Q2Qc 20); Some (Q2Qc 30)]
      = Ok (mk_stats (Fin (Q2Qc 20)) (Fin (Q2Qc 10)) (Fin (Q2Qc 30))
                     (Fin (Q2Qc 10)) 3)).
Proof.
  assert (G : forall samples : list sample,
     (2 <= List.length (valid_times samples))%nat ->
     exists mn mx,
       compute_stats fsqrt samples
       = Ok (mk_stats (Fin (arithmetic_mean (valid_times samples)))
                      (Fin mn) (Fin mx)
                      (Fin (fsqrt (sample_variance (valid_times samples))))
                      (List.length (valid_times samples)))
       /\ is_minimum mn (valid_times samples)
       /\ is_maximum mx (valid_times samples)).
  { intros samples Hn. unfold compute_stats.
    destruct (@stats_of_times_cons fsqrt (valid_times samples))
      as (mn & mx & sd & E & Hmn & Hmx & _ & H2).
    - destruct (valid_times samples); [simpl in Hn; lia | congruence].
    - exists mn, mx. rewrite E, (H2 Hn). auto. }
  split; [exact G|]. intro Hsq.
  set (l := [Some (Q2Qc 10); Some (Q2Qc 20); Some (Q2Qc 30)]).
  assert (El : valid_times l = [Q2Qc 10; Q2Qc 20; Q2Qc 30])
    by (vm_compute; reflexivity).
  destruct (G l) as (mn & mx & E & Hmn & Hmx).
  { rewrite El. simpl. lia. }
  rewrite E, El.
  assert (Emn : mn = Q2Qc 10).
  { rewrite El in Hmn. destruct Hmn as [Hin Hle].
    apply Qcle_antisym; [apply Hle; now left|].
    destruct Hin as [<-|[<-|[<-|[]]]]; vm_compute; discriminate. }
  assert (Emx : mx = Q2Qc 30).
  { rewrite El in Hmx. destruct Hmx as [Hin Hle].
    apply Qcle_antisym; [|apply Hle; right; right; now left].
    destruct Hin as [<-|[<-|[<-|[]]]]; vm_compute; discriminate. }
  assert (Ea : arithmetic_mean [Q2Qc 10; Q2Qc 20; Q2Qc 30] = Q2Qc 20) by qc_eq.
  assert (Ev : sample_variance [Q2Qc 10; Q2Qc 20; Q2Qc 30]
               = (Q2Qc 10 * Q2Qc 10)%Qc) by qc_eq.
  rewrite Emn, Emx, Ea, Ev, Hsq; [reflexivity | vm_compute; discriminate].
Qed.

Lemma compute_stats_many_witness :
  (exists mn mx,
     compute_stats Instance.qsqrt
       [Some (Q2Qc (3 # 2)); None; Some (Q2Qc (7 # 2)); Some (Q2Qc 0)]
     = Ok (mk_stats (Fin (arithmetic_mean [Q2Qc (3 # 2); Q2Qc (7 # 2)]))
                    (Fin mn) (Fin mx)
                    (Fin (Instance.qsqrt
                            (sample_variance [Q2Qc (3 # 2); Q2Qc (7 # 2)])))
                    2)
     /\ is_minimum mn [Q2Qc (3 # 2); Q2Qc (7 # 2)]
     /\ is_maximum mx [Q2Qc (3 # 2); Q2Qc (7 # 2)])
  /\ compute_stats Instance.qsqrt
       [Some (Q2Qc 10); Some (Q2Qc 20); Some (Q2Qc 30)]
     = Ok (mk_stats (Fin (Q2Qc 20)) (Fin (Q2Qc 10)) (Fin (Q2Qc 30))
                    (Fin (Q2Qc 10)) 3).
Proof.
  split.
  - apply (proj1 (compute_stats_many Instance.qsqrt)
             [Some (Q2Qc (3 # 2)); None; Some (Q2Qc (7 # 2)); Some (Q2Qc 0)]).
    vm_compute. lia.
  - apply (proj2 (compute_stats_many Instance.qsqrt)). exact qsqrt_exact.
Defined.
(* ------------------------------------------------------------------ *)
(** ** Dictionaries *)

Section DictFacts.
Variable V : Type.
Implicit Types (d : pydict V) (k : string) (v : V).

Lemma dict_get_set_same k v d : dict_get k (dict_set k v d) = Some v.
Proof.
  induction d as [|[k' v'] d IH]; simpl.
  - now rewrite String.eqb_refl.
  - destruct (String.eqb k k') eqn:E; simpl; rewrite ?E, ?String.eqb_refl; auto.
Qed.

Lemma dict_get_set_other k k' v d :
  k <> k' -> dict_get k' (dict_set k v d) = dict_get k' d.
Proof.
  intro Hne. induction d as [|[k0 v0] d IH]; simpl.
  - destruct (String.eqb k' k) eqn:E; [|reflexivity].
    apply String.eqb_eq in E. congruence.
  - destruct (String.eqb k k0) eqn:E; simpl.
    + apply String.eqb_eq in E. subst k0.
      destruct (String.eqb k' k) eqn:E'; [|reflexivity].
      apply String.eqb_eq in E'. congruence.
    + rewrite IH. reflexivity.
Qed.

Lemma dict_set_fresh k v d :
  ~ In k (keys d) -> dict_set k v d = d ++ [(k, v)].
Proof.
  unfold keys. induction d as [|[k' v'] d IH]; simpl; intro H; [reflexivity|].
  destruct (String.eqb k k') eqn:E.
  - apply String.eqb_eq in E. intuition congruence.
  - rewrite IH; [reflexivity | tauto].
Qed.

Lemma dict_get_None k d : ~ In k (keys d) -> dict_get k d = None.
Proof.
  unfold keys. induction d as [|[k' v'] d IH]; simpl; intro H; [reflexivity|].
  destruct (String.eqb k k') eqn:E.
  - apply String.eqb_eq in E. intuition congruence.
  - apply IH. tauto.
Qed.

Lemma dict_get_In k v d : dict_get k d = Some v -> In (k, v) d.
Proof.
  induction d as [|[k' v'] d IH]; simpl; [discriminate|].
  destruct (String.eqb k k') eqn:E.
  - apply String.eqb_eq in E. intro H. inversion H. subst. now left.
  - intro H. right. now apply IH.
Qed.

Lemma In_dict_get k v d : dict_wf d -> In (k, v) d -> dict_get k d = Some v.
Proof.
  unfold dict_wf, keys. induction d as [|[k' v'] d IH]; simpl; [tauto|].
  intros Hwf [H|H].
  - inversion H. subst. now rewrite String.eqb_refl.
  - inversion Hwf as [|? ? Hnotin Hwf']; subst.
    destruct (String.eqb k k') eqn:E.
    + apply String.eqb_eq in E. subst. exfalso. apply Hnotin.
      change k' with (fst (k', v)). now apply in_map.
    + now apply IH.
Qed.

Lemma dict_get_app_fresh k d d' :
  ~ In k (keys d) -> dict_get k (d ++ d') = dict_get k d'.
Proof.
  unfold keys. induction d as [|[k' v'] d IH]; simpl; intro H; [reflexivity|].
  destruct (String.eqb k k') eqn:E.
  - apply String.eqb_eq in E. intuition congruence.
  - apply IH. tauto.
Qed.

End DictFacts.

(** A loop that assigns [d[k] = f x] for the items of a dictionary, from a
    dictionary that has none of these keys, appends the items in order. *)
Lemma fold_dict_set_fresh (A B : Type) (f : A -> B) (items : pydict A)
  (acc : pydict B) :
  NoDup (keys items) ->
  (forall k, In k (keys items) -> ~ In k (keys acc)) ->
  fold_left (fun a it => dict_set (fst it) (f (snd it)) a) items acc
  = acc ++ map (fun it => (fst it, f (snd it))) items.
Proof.
  revert acc. induction items as [|[k x] items IH]; intros acc Hnd Hfresh.
  - simpl. now rewrite app_nil_r.
  - simpl. inversion Hnd as [|? ? Hk Hnd']; subst.
    rewrite dict_set_fresh by (apply Hfresh; now left).
    rewrite IH; [now rewrite <- app_assoc | exact Hnd' |].
    intros k' Hk' Hin. unfold keys in Hin. rewrite map_app in Hin.
    apply in_app_or in Hin. destruct Hin as [Hin|[<-|[]]].
    + apply (Hfresh k'); [now right | exact Hin].
    + exact (Hk Hk').
Qed.

Lemma lookup_map_keys (B : Type) (f : string -> B) (names : list string)
  (n : string) :
  In n names -> lookup n (map (fun x => (x, f x)) names) = Ok (f n).
Proof.
  unfold lookup. induction names as [|x names IH]; simpl; [tauto|].
  intros [->|H].
  - now rewrite String.eqb_refl.
  - destruct (String.eqb n x) eqn:E.
    + apply String.eqb_eq in E. now subst.
    + now apply IH.
Qed.

(* ------------------------------------------------------------------ *)
(** ** [sorted] *)

Lemma flt_fle (a b : pyfloat) :
  a <> NaN -> b <> NaN -> flt a b = false -> fle b a = true.
Proof.
  destruct a as [x| |], b as [y| |]; simpl; try congruence.
  intros _ _ H. apply Qcltb_ge in H. now apply Qle_bool_iff.
Qed.

Lemma flt_weak (a b : pyfloat) : flt a b = true -> fle a b = true.
Proof.
  destruct a as [x| |], b as [y| |]; simpl; try congruence.
  intro H. apply Qcltb_lt in H. apply Qle_bool_iff. now apply Qclt_le_weak.
Qed.

Lemma fle_trans (a b c : pyfloat) :
  fle a b = true -> fle b c = true -> fle a c = true.
Proof.
  destruct a as [x| |], b as [y| |], c as [z| |]; simpl; try congruence.
  rewrite !Qle_bool_iff. apply Qle_trans.
Qed.

Lemma flt_not_feq (a b k : pyfloat) :
  feq a k = true -> feq b k = true -> flt a b = false.
Proof.
  destruct a as [x| |], b as [y| |], k as [z| |]; simpl; try congruence.
  intros H1 H2. apply Qceqb_eq in H1, H2. subst. apply Qcltb_irrefl.
Qed.

Section Sorted.
Variable A : Type.
Variable key : A -> pyfloat.

Lemma insert_by_perm (x : A) (l : list A) :
  Permutation (insert_by key x l) (x :: l).
Proof.
  induction l as [|y l IH]; simpl; [reflexivity|].
  destruct (flt (key y) (key x)).
  - rewrite IH. apply perm_swap.
  - reflexivity.
Qed.

Lemma py_sorted_perm (l : list A) : Permutation (py_sorted key l) l.
Proof.
  induction l as [|x l IH]; simpl; [reflexivity|].
  rewrite insert_by_perm. now constructor.
Qed.

Lemma insert_by_sorted (x : A) (l : list A) :
  key x <> NaN -> Forall (fun y => key y <> NaN) l ->
  StronglySorted (key_le key) l -> StronglySorted (key_le key) (insert_by key x l).
Proof.
  intros Hx Hl Hs. induction Hs as [|y l Hs IH Hy]; simpl.
  - constructor; constructor.
  - inversion Hl as [|? ? Hyn Hl']; subst.
    destruct (flt (key y) (key x)) eqn:E.
    + constructor; [now apply IH|].
      eapply Permutation_Forall; [symmetry; apply insert_by_perm|].
      constructor; [now apply flt_weak | exact Hy].
    + assert (Hxy : key_le key x y) by (now apply flt_fle).
      constructor; [now constructor|].
      constructor; [exact Hxy|].
      eapply Forall_impl; [|exact Hy].
      intros z Hz. unfold key_le in *. eapply fle_trans; eassumption.
Qed.

Lemma py_sorted_sorted (l : list A) :
  Forall (fun y => key y <> NaN) l -> StronglySorted (key_le key) (py_sorted key l).
Proof.
  induction l as [|x l IH]; simpl; intro H; [constructor|].
  inversion H; subst. apply insert_by_sorted; auto.
  eapply Permutation_Forall; [symmetry; apply py_sorted_perm | auto].
Qed.

(** Stability: the items whose key equals [k] keep their order. *)
Lemma insert_by_stable (k : pyfloat) (x : A) (l : list A) :
  filter (fun y => feq (key y) k) (insert_by key x l)
  = filter (fun y => feq (key y) k) (x :: l).
Proof.
  induction l as [|y l IH]; [reflexivity|].
  cbn [insert_by]. destruct (flt (key y) (key x)) eqn:E; [|reflexivity].
  cbn [filter] in *. rewrite IH.
  destruct (feq (key x) k) eqn:Ex; [|reflexivity].
  destruct (feq (key y) k) eqn:Ey; [|reflexivity].
  rewrite (flt_not_feq _ _ _ Ey Ex) in E. discriminate.
Qed.

Lemma py_sorted_stable (k : pyfloat) (l : list A) :
  filter (fun y => feq (key y) k) (py_sorted key l)
  = filter (fun y => feq (key y) k) l.
Proof.
  induction l as [|x l IH]; [reflexivity|].
  cbn [py_sorted]. rewrite insert_by_stable. cbn [filter]. now rewrite IH.
Qed.

Lemma sorted_nth (R : A -> A -> Prop) (l : list A) (i j : nat) (a b : A) :
  StronglySorted R l -> (i < j)%nat ->
  nth_error l i = Some a -> nth_error l j = Some b -> R a b.
Proof.
  intro Hs. revert i j. induction Hs as [|x l Hs IH Hx]; intros i j Hij Hi Hj.
  - destruct i; discriminate.
  - destruct j as [|j]; [lia|]. simpl in Hj. destruct i as [|i].
    + simpl in Hi. inversion Hi; subst.
      rewrite Forall_forall in Hx. apply Hx. eapply nth_error_In; eauto.
    + simpl in Hi. apply (IH i j); auto. lia.
Qed.

End Sorted.
(* ------------------------------------------------------------------ *)
(** ** The reporting pass on a populated table *)

Lemma for_rows_map (A B : Type) (body : A -> result B) (g : A -> B)
  (l : list A) :
  (forall x, In x l -> body x = Ok (g x)) -> for_rows body l = Ok (map g l).
Proof.
  induction l as [|x l IH]; intro H; [reflexivity|].
  cbn [for_rows]. rewrite (H x) by now left. cbn [rbind].
  rewrite IH; [reflexivity|]. intros y Hy. apply H. now right.
Qed.

Lemma for_rows_total (A B : Type) (body : A -> result B) (l : list A) :
  (forall x, In x l -> exists y, body x = Ok y) ->
  exists ys, for_rows body l = Ok ys.
Proof.
  induction l as [|x l IH]; intro H; [eexists; reflexivity|].
  destruct (H x) as [y Ey]; [now left|].
  destruct IH as [ys Eys]; [intros z Hz; apply H; now right|].
  exists (y :: ys). cbn [for_rows]. rewrite Ey. cbn [rbind]. rewrite Eys.
  reflexivity.
Qed.

Section Report.
Variable fsqrt : Qc -> Qc.
Variable results : results_table.
Variable ds : list string.

Lemma resolver_stats_eq (name : string) :
  stats_of_times fsqrt (resolver_times results ds name)
  = Ok (resolver_stats fsqrt results ds name).
Proof.
  unfold resolver_stats.
  destruct (stats_of_times_total fsqrt (resolver_times results ds name))
    as [st E]. rewrite E. reflexivity.
Qed.

Lemma gather_times_ok (name : string) (ds' : list string) (acc : list Qc) :
  populated results [name] ds' ->
  gather_times results name ds' acc
  = Ok (acc ++ resolver_times results ds' name).
Proof.
  revert acc. induction ds' as [|d ds' IH]; intros acc Hp.
  - simpl. now rewrite app_nil_r.
  - destruct (Hp name d) as (inner & l & Hn & Hd); [now left | now left |].
    cbn [gather_times]. unfold lookup at 1. rewrite Hn. cbn [rbind].
    unfold lookup at 1. rewrite Hd. cbn [rbind].
    rewrite IH.
    + unfold resolver_times. cbn [flat_map]. unfold samples_at at 2.
      rewrite Hn, Hd. now rewrite app_assoc.
    + intros n' d' Hn' Hd'. apply Hp; [exact Hn' | now right].
Qed.

Lemma overall_loop_ok (names : list string) (acc : pydict stats)
  (printed : list row) :
  NoDup names -> (forall n, In n names -> ~ In n (keys acc)) ->
  populated results names ds ->
  overall_loop fsqrt results names ds acc printed
  = Ok (acc ++ map (fun n => (n, resolver_stats fsqrt results ds n)) names,
        printed ++ map (fun n => numeric_row n (resolver_stats fsqrt results ds n))
                       names).
Proof.
  revert acc printed.
  induction names as [|n names IH]; intros acc printed Hnd Hfresh Hp.
  - simpl. now rewrite !app_nil_r.
  - inversion Hnd as [|? ? Hn Hnd']; subst.
    cbn [overall_loop]. rewrite gather_times_ok.
    + cbn [rbind app]. rewrite resolver_stats_eq. cbn [rbind].
      rewrite dict_set_fresh by (apply Hfresh; now left).
      rewrite IH.
      * cbn [map]. now rewrite <- !app_assoc.
      * exact Hnd'.
      * intros k Hk Hin. unfold keys in Hin. rewrite map_app in Hin.
        apply in_app_or in Hin. destruct Hin as [Hin|[<-|[]]].
        -- apply (Hfresh k); [now right | exact Hin].
        -- exact (Hn Hk).
      * intros n' d' Hn' Hd'. apply Hp; [now right | exact Hd'].
    + intros n' d' [<-|[]] Hd'. apply Hp; [now left | exact Hd'].
Qed.

Lemma domain_row_total (name domain : string) :
  populated results [name] [domain] ->
  exists r, domain_row fsqrt results name domain = Ok r.
Proof.
  intro Hp. destruct (Hp name domain) as (inner & l & Hn & Hd);
    [now left | now left |].
  unfold domain_row. unfold lookup at 1. rewrite Hn. cbn [rbind].
  unfold lookup at 1. rewrite Hd. cbn [rbind].
  destruct (valid_times l) as [|x times] eqn:E; [eexists; reflexivity|].
  destruct (@stats_of_times_cons fsqrt (x :: times))
    as (mn & mx & sd & Est & _); [congruence|].
  unfold stats_of_times in Est.
  destruct (py_mean (x :: times)) as [a|e]; [|discriminate].
  destruct (py_min (x :: times)) as [b|e]; [|discriminate].
  destruct (py_max (x :: times)) as [c|e]; [|discriminate].
  cbn [rbind] in *.
  destruct (if (1 <? List.length (x :: times))%nat
            then py_stdev fsqrt (x :: times) else Ok (Q2Qc 0)) as [s|e];
    [|discriminate].
  cbn [rbind]. eexists. reflexivity.
Qed.

Lemma breakdown_total (names : list string) :
  populated results names ds ->
  exists bd, breakdown fsqrt results names ds = Ok bd.
Proof.
  intro Hp. unfold breakdown. apply for_rows_total. intros n Hn.
  destruct (@for_rows_total _ _ (domain_row fsqrt results n) ds) as [rows E].
  - intros d Hd. apply domain_row_total.
    intros n' d' [<-|[]] [<-|[]]. now apply Hp.
  - rewrite E. cbn [rbind]. eexists. reflexivity.
Qed.

End Report.

Lemma In_enumerate (A : Type) (l : list A) (start i : nat) (x : A) :
  In (i, x) (enumerate start l) -> In x l.
Proof.
  revert start. induction l as [|y l IH]; intros start H; [exact H|].
  destruct H as [H|H]; [inversion H; now left | right; eauto].
Qed.

Lemma map_snd_enumerate (A : Type) (l : list A) (start : nat) :
  map snd (enumerate start l) = l.
Proof.
  revert start. induction l as [|y l IH]; intro start; [reflexivity|].
  cbn [enumerate map snd]. now rewrite IH.
Qed.

Lemma verdict_differs (best : string) (a : pyfloat) :
  verdict_message best a <> no_data_message.
Proof. unfold verdict_message, no_data_message. simpl. discriminate. Qed.

Section Ranking.
Variable fsqrt : Qc -> Qc.
Variable results : results_table.
Variable rs : pydict string.
Variable ds : list string.

Let st_of (n : string) : stats := resolver_stats fsqrt results ds n.
Let overall : pydict stats := map (fun n => (n, st_of n)) (keys rs).
Let ranking : pydict pyfloat :=
  map (fun n => (n, ranking_key (st_of n))) (keys rs).
Let sorted : list (string * pyfloat) := py_sorted snd ranking.

Lemma st_of_key (n : string) :
  (resolver_times results ds n = [] -> ranking_key (st_of n) = PInf)
  /\ (resolver_times results ds n <> [] ->
      ranking_key (st_of n)
      = Fin (arithmetic_mean (resolver_times results ds n))).
Proof. apply (@ranking_key_PInf fsqrt _ _ (resolver_stats_eq fsqrt results ds n)). Qed.

Lemma st_of_avg_not_inf (n : string) : feq (avg (st_of n)) PInf = false.
Proof.
  destruct (@stats_nan_count fsqrt _ _ (resolver_stats_eq fsqrt results ds n))
    as (_ & H & _).
  destruct (feq (avg (st_of n)) PInf) eqn:E; [|reflexivity].
  apply feq_PInf in E. contradiction.
Qed.

Lemma key_not_nan (n : string) : ranking_key (st_of n) <> NaN.
Proof.
  destruct (st_of_key n) as [H1 H2].
  destruct (resolver_times results ds n) eqn:E.
  - rewrite H1; [discriminate | reflexivity].
  - rewrite H2; discriminate.
Qed.

Lemma key_is_avg (n : string) (a : Qc) :
  ranking_key (st_of n) = Fin a -> avg (st_of n) = Fin a.
Proof.
  unfold ranking_key.
  destruct ((count (st_of n) =? 0)%nat || fne (avg (st_of n)) (avg (st_of n)));
    [discriminate | auto].
Qed.

Lemma ranking_no_nan : Forall (fun e => snd e <> NaN) ranking.
Proof.
  unfold ranking. apply Forall_forall. intros e He.
  apply in_map_iff in He. destruct He as (n & <- & _). apply key_not_nan.
Qed.

Lemma sorted_perm : Permutation sorted ranking.
Proof. apply py_sorted_perm. Qed.

Lemma sorted_sorted : StronglySorted (key_le snd) sorted.
Proof. apply py_sorted_sorted. apply ranking_no_nan. Qed.

Lemma In_sorted (n : string) (k : pyfloat) :
  In (n, k) sorted <-> In n (keys rs) /\ k = ranking_key (st_of n).
Proof.
  split.
  - intro H. apply (Permutation_in _ sorted_perm) in H.
    apply in_map_iff in H. destruct H as (n' & E & Hn). inversion E; subst. split; auto.
  - intros [Hn ->]. apply (Permutation_in _ (Permutation_sym sorted_perm)).
    apply in_map_iff. exists n. auto.
Qed.

Lemma overall_lookup (n : string) :
  In n (keys rs) -> lookup n overall = Ok (st_of n).
Proof. apply lookup_map_keys. Qed.

Lemma ranking_stats_of_overall :
  dict_wf rs -> ranking_stats_of overall = ranking.
Proof.
  intro Hwf. unfold ranking_stats_of.
  rewrite (fold_dict_set_fresh ranking_key overall []).
  - unfold overall, ranking. cbn [app]. rewrite map_map. reflexivity.
  - unfold overall, keys. rewrite map_map. cbn [fst]. rewrite map_id.
    exact Hwf.
  - intros k _ [].
Qed.

Lemma ranking_rows_ok :
  for_rows (ranking_row overall) (enumerate 1 sorted)
  = Ok (map (fun it => (fst it, numeric_row (fst (snd it))
                                            (st_of (fst (snd it)))))
            (enumerate 1 sorted)).
Proof.
  apply for_rows_map. intros [rank [n k]] Hin.
  apply In_enumerate in Hin. apply In_sorted in Hin. destruct Hin as [Hn _].
  unfold ranking_row. rewrite overall_lookup by exact Hn. cbn [rbind].
  rewrite st_of_avg_not_inf. reflexivity.
Qed.

Lemma verdict_total : exists v, verdict overall sorted = Ok v.
Proof.
  unfold verdict. destruct sorted as [|[n k] rest] eqn:E;
    [eexists; reflexivity|].
  destruct (fne k PInf); [|eexists; reflexivity].
  assert (Hin : In (n, k) sorted) by (rewrite E; now left).
  apply In_sorted in Hin. destruct Hin as [Hn _].
  rewrite overall_lookup by exact Hn. cbn [rbind]. eexists. reflexivity.
Qed.

(** The report of a populated table. *)
Lemma report_ok :
  dict_wf rs -> populated results (keys rs) ds ->
  exists ov_rows bd v,
    report fsqrt results rs ds
    = Ok (mk_report overall ov_rows bd ranking sorted
            (map (fun it => (fst it, numeric_row (fst (snd it))
                                                 (st_of (fst (snd it)))))
                 (enumerate 1 sorted))
            v)
    /\ verdict overall sorted = Ok v.
Proof.
  intros Hwf Hp. unfold report.
  rewrite (@overall_loop_ok fsqrt results ds (keys rs) [] []);
    [|exact Hwf | intros n _ [] | exact Hp].
  cbn [rbind app fst snd].
  destruct (@breakdown_total fsqrt results ds (keys rs) Hp) as [bd Ebd]. rewrite Ebd. cbn [rbind].
  change (map (fun n : string => (n, resolver_stats fsqrt results ds n))
            (keys rs)) with overall.
  rewrite ranking_stats_of_overall by exact Hwf. unfold sorted_resolvers_of.
  fold sorted. rewrite ranking_rows_ok. cbn [rbind].
  destruct verdict_total as [v Ev]. rewrite Ev. cbn [rbind].
  eexists _, bd, v. split; reflexivity.
Qed.

Lemma fle_PInf (k : pyfloat) : fle PInf k = true -> k = PInf.
Proof. destruct k; simpl; congruence. Qed.

Lemma fle_refl (k : pyfloat) : k <> NaN -> fle k k = true.
Proof.
  destruct k as [q| |]; simpl; try congruence.
  intros _. apply Qle_bool_iff. apply Qle_refl.
Qed.

(** The first item of the sorted list has the least key. *)
Lemma head_least (b : string) (kb : pyfloat) (rest : list (string * pyfloat)) :
  sorted = (b, kb) :: rest ->
  forall n k, In (n, k) ranking -> fle kb k = true.
Proof.
  intros E n k Hin.
  pose proof sorted_sorted as Hs. rewrite E in Hs.
  apply (Permutation_in _ (Permutation_sym sorted_perm)) in Hin.
  rewrite E in Hin. inversion Hs as [|? ? _ Hall]; subst.
  destruct Hin as [Hin|Hin].
  - inversion Hin; subst. apply fle_refl.
    assert (H : In (n, k) sorted) by (rewrite E; now left).
    apply In_sorted in H. destruct H as [_ ->]. apply key_not_nan.
  - rewrite Forall_forall in Hall. exact (Hall _ Hin).
Qed.

Lemma verdict_spec (v : string) :
  verdict overall sorted = Ok v ->
  ((exists n k, In (n, k) ranking /\ k <> PInf) ->
   exists best a rest,
     sorted = (best, Fin a) :: rest
     /\ In best (keys rs)
     /\ avg (st_of best) = Fin a
     /\ v = verdict_message best (Fin a)
     /\ forall n k, In (n, k) ranking -> fle (Fin a) k = true)
  /\ (v = no_data_message <-> forall n k, In (n, k) ranking -> k = PInf).
Proof.
  intro Ev. unfold verdict in Ev.
  destruct sorted as [|[b kb] rest] eqn:E.
  - assert (Hr : ranking = []).
    { apply Permutation_nil. rewrite <- E. apply sorted_perm. }
    inversion Ev; subst v. rewrite Hr. split.
    + intros (n & k & [] & _).
    + split; [intros _ n k [] | reflexivity].
  - assert (Hin : In (b, kb) sorted) by (rewrite E; now left).
    apply In_sorted in Hin. destruct Hin as [Hb Hkb].
    pose proof (@head_least b kb rest E) as Hleast.
    destruct kb as [a| |].
    + unfold fne in Ev. cbn [feq negb] in Ev.
      rewrite overall_lookup in Ev by exact Hb. cbn [rbind] in Ev.
      symmetry in Hkb. rewrite (@key_is_avg b a Hkb) in Ev.
      inversion Ev; subst v.
      split.
      * intros _. exists b, a, rest. repeat split; auto.
        exact (@key_is_avg b a Hkb).
      * split.
        -- intro H. exfalso. exact (@verdict_differs _ _ H).
        -- intro H. exfalso.
           assert (Hin : In (b, Fin a) ranking).
           { apply (Permutation_in _ sorted_perm). rewrite E. now left. }
           specialize (H _ _ Hin). discriminate.
    + unfold fne in Ev. cbn [feq negb] in Ev. inversion Ev; subst v. split.
      * intros (n & k & Hin & Hk). exfalso. apply Hk.
        apply fle_PInf. exact (Hleast _ _ Hin).
      * split; [|reflexivity]. intros _ n k Hin.
        apply fle_PInf. exact (Hleast _ _ Hin).
    + exfalso. symmetry in Hkb. exact (@key_not_nan b Hkb).
Qed.

End Ranking.

Lemma no_data_nil (results : results_table) (ds : list string) (n : string) :
  no_data results ds n = true <-> resolver_times results ds n = [].
Proof.
  unfold no_data. destruct (resolver_times results ds n); split; congruence.
Qed.

Lemma no_data_cons (results : results_table) (ds : list string) (n : string) :
  no_data results ds n = false <-> resolver_times results ds n <> [].
Proof.
  unfold no_data. destruct (resolver_times results ds n); split; congruence.
Qed.

Lemma key_PInf_no_data (fsqrt : Qc -> Qc) (results : results_table)
  (ds : list string) (n : string) :
  feq (ranking_key (resolver_stats fsqrt results ds n)) PInf
  = no_data results ds n.
Proof.
  destruct (st_of_key fsqrt results ds n) as [H1 H2].
  destruct (no_data results ds n) eqn:E.
  - apply no_data_nil in E. rewrite (H1 E). reflexivity.
  - apply no_data_cons in E. rewrite (H2 E). reflexivity.
Qed.

Lemma filter_keys_map (B : Type) (g : string -> B) (p : string * B -> bool)
  (names : list string) :
  map fst (filter p (map (fun n => (n, g n)) names))
  = filter (fun n => p (n, g n)) names.
Proof.
  induction names as [|n names IH]; [reflexivity|].
  cbn [map filter]. destruct (p (n, g n)); cbn [map fst]; now rewrite IH.
Qed.

(* ------------------------------------------------------------------ *)
(** ** Claims about the ranking *)

(** C2.  The ranking lists every resolver once, in ascending order of its
    key; the key is the overall average of a resolver that has a valid
    sample and positive infinity otherwise, so a resolver without valid
    samples stands strictly after every resolver with one; the sort is
    stable, and the resolvers without data keep their declaration order. *)
Theorem rank_resolvers_order (fsqrt : Qc -> Qc) (results : results_table)
  (rs : pydict string) (ds : list string) :
  dict_wf rs -> populated results (keys rs) ds ->
  exists out,
    report fsqrt results rs ds = Ok out
    /\ keys (rep_ranking_stats out) = keys rs
    /\ Permutation (rep_sorted_resolvers out) (rep_ranking_stats out)
    /\ (forall n k, In (n, k) (rep_sorted_resolvers out) ->
          (no_data results ds n = true -> k = PInf)
          /\ (no_data results ds n = false ->
              k = Fin (arithmetic_mean (resolver_times results ds n))))
    /\ StronglySorted (key_le snd) (rep_sorted_resolvers out)
    /\ (forall i j a b,
          nth_error (rep_sorted_resolvers out) i = Some a ->
          nth_error (rep_sorted_resolvers out) j = Some b ->
          no_data results ds (fst a) = true ->
          no_data results ds (fst b) = false ->
          (j < i)%nat)
    /\ (forall k,
          filter (fun e => feq (snd e) k) (rep_sorted_resolvers out)
          = filter (fun e => feq (snd e) k) (rep_ranking_stats out))
    /\ map fst (filter (fun e => feq (snd e) PInf) (rep_sorted_resolvers out))
       = filter (no_data results ds) (keys rs).
Proof.
  intros Hwf Hp.
  destruct (report_ok fsqrt Hwf Hp) as (ov_rows & bd & v & E & _).
  eexists. split; [exact E|]. cbn [rep_ranking_stats rep_sorted_resolvers].
  assert (Hkeys : forall n k,
    In (n, k) (py_sorted snd
      (map (fun n => (n, ranking_key (resolver_stats fsqrt results ds n)))
           (keys rs))) ->
    (no_data results ds n = true -> k = PInf)
    /\ (no_data results ds n = false ->
        k = Fin (arithmetic_mean (resolver_times results ds n)))).
  { intros n k Hin. apply In_sorted in Hin. destruct Hin as [_ ->].
    destruct (st_of_key fsqrt results ds n) as [H1 H2]. split; intro Hd.
    - apply H1. now apply no_data_nil.
    - apply H2. now apply no_data_cons. }
  pose proof (sorted_sorted fsqrt results rs ds) as Hs.
  repeat split.
  - unfold keys. rewrite map_map. cbn [fst]. apply map_id.
  - apply sorted_perm.
  - apply Hkeys. assumption.
  - apply Hkeys. assumption.
  - exact Hs.
  - intros i j [na ka] [nb kb] Hi Hj Ha Hb. cbn [fst] in *.
    destruct (Hkeys na ka (nth_error_In _ _ Hi)) as [Hka _].
    destruct (Hkeys nb kb (nth_error_In _ _ Hj)) as [_ Hkb].
    specialize (Hka Ha). specialize (Hkb Hb). subst ka kb.
    destruct (Nat.lt_trichotomy i j) as [Hlt|[Heq|Hgt]]; [| |exact Hgt].
    + pose proof (sorted_nth Hs Hlt Hi Hj) as Hle.
      unfold key_le in Hle. cbn in Hle. discriminate.
    + subst j. rewrite Hi in Hj. inversion Hj.
  - intro k. apply py_sorted_stable.
  - rewrite py_sorted_stable. rewrite filter_keys_map. cbn [snd].
    apply filter_ext. intro n. apply key_PInf_no_data.
Qed.

Lemma rs3_wf : dict_wf Instance.rs3.
Proof.
  unfold dict_wf, keys. cbn [map fst Instance.rs3].
  repeat constructor; cbn [In]; intuition discriminate.
Qed.

Lemma table12_populated :
  populated Instance.table12 (keys Instance.rs3) Instance.ds2.
Proof.
  intros name domain Hn Hd. cbn in Hn, Hd.
  destruct Hn as [<-|[<-|[<-|[]]]]; destruct Hd as [<-|[<-|[]]];
    eexists; eexists; split; reflexivity.
Qed.

Lemma rank_resolvers_order_witness :
  exists out,
    report Instance.qsqrt Instance.table12 Instance.rs3 Instance.ds2 = Ok out
    /\ map fst (filter (fun e => feq (snd e) PInf) (rep_sorted_resolvers out))
       = filter (no_data Instance.table12 Instance.ds2) (keys Instance.rs3).
Proof.
  destruct (@rank_resolvers_order Instance.qsqrt Instance.table12 Instance.rs3
              Instance.ds2 rs3_wf table12_populated)
    as (out & E & _ & _ & _ & _ & _ & _ & H).
  exists out. split; [exact E | exact H].
Defined.

(** C10.  In the overall statistics the average is not-a-number exactly when
    the count of valid samples is 0, so the two tests of the ranking
    condition agree, and each of them alone selects the resolvers whose
    ranking key is positive infinity. *)
Theorem nan_average_iff_no_samples (fsqrt : Qc -> Qc) :
  (forall l st, stats_of_times fsqrt l = Ok st ->
     (avg st = NaN <-> count st = 0%nat)
     /\ (count st =? 0)%nat = fne (avg st) (avg st)
     /\ (ranking_key st = PInf <-> count st = 0%nat)
     /\ (ranking_key st = PInf <-> avg st = NaN))
  /\ (forall results rs ds,
        dict_wf rs -> populated results (keys rs) ds ->
        exists out,
          report fsqrt results rs ds = Ok out
          /\ forall n st k,
               In (n, st) (rep_overall_stats out) ->
               In (n, k) (rep_ranking_stats out) ->
               count st = List.length (resolver_times results ds n)
               /\ (avg st = NaN <-> count st = 0%nat)
               /\ (k = PInf <-> count st = 0%nat)
               /\ (k = PInf <-> avg st = NaN)).
Proof.
  assert (G : forall l st, stats_of_times fsqrt l = Ok st ->
     (avg st = NaN <-> count st = 0%nat)
     /\ (count st =? 0)%nat = fne (avg st) (avg st)
     /\ (ranking_key st = PInf <-> count st = 0%nat)
     /\ (ranking_key st = PInf <-> avg st = NaN)).
  { intros l st H.
    destruct (stats_nan_count fsqrt l H) as (Hnan & Hinf & Htest).
    assert (Hk : ranking_key st = PInf <-> count st = 0%nat).
    { unfold ranking_key. rewrite <- Htest, orb_diag.
      destruct (count st =? 0)%nat eqn:E.
      - apply Nat.eqb_eq in E. tauto.
      - apply Nat.eqb_neq in E. tauto. }
    repeat split; try tauto. }
  split; [exact G|].
  intros results rs ds Hwf Hp.
  destruct (report_ok fsqrt Hwf Hp) as (ov_rows & bd & v & E & _).
  eexists. split; [exact E|]. cbn [rep_overall_stats rep_ranking_stats].
  intros n st k Hst Hk.
  apply in_map_iff in Hst. destruct Hst as (n1 & E1 & _).
  apply in_map_iff in Hk. destruct Hk as (n2 & E2 & _).
  inversion E1; subst. inversion E2; subst.
  pose proof (resolver_stats_eq fsqrt results ds n) as Hs.
  destruct (G _ _ Hs) as (H1 & _ & H3 & H4).
  split; [exact (stats_count fsqrt _ Hs) | tauto].
Qed.

Lemma nan_average_iff_no_samples_witness :
  exists out,
    report Instance.qsqrt Instance.table12 Instance.rs3 Instance.ds2 = Ok out
    /\ forall n st k,
         In (n, st) (rep_overall_stats out) ->
         In (n, k) (rep_ranking_stats out) ->
         (k = PInf <-> count st = 0%nat).
Proof.
  destruct (proj2 (nan_average_iff_no_samples Instance.qsqrt)
              Instance.table12 Instance.rs3 Instance.ds2
              rs3_wf table12_populated) as (out & E & H).
  exists out. split; [exact E|]. intros n st k Hst Hk.
  exact (proj1 (proj2 (proj2 (H n st k Hst Hk)))).
Defined.

(* ------------------------------------------------------------------ *)
(** ** The ranking table *)

(** A resolver without valid samples has a not-a-number average, which is
    not equal to infinity: line 134 sends it to the numeric branch. *)
Lemma ranking_rows_of_report (fsqrt : Qc -> Qc) (results : results_table)
  (rs : pydict string) (ds : list string) :
  dict_wf rs -> populated results (keys rs) ds ->
  exists out,
    report fsqrt results rs ds = Ok out
    /\ forall rank r, In (rank, r) (rep_ranking_rows out) ->
         In (row_label r) (keys rs)
         /\ (no_data results ds (row_label r) = true ->
             r = mk_row (row_label r) "nan" "nan" "nan" "nan").
Proof.
  intros Hwf Hp.
  destruct (report_ok fsqrt Hwf Hp) as (ov_rows & bd & v & E & _).
  eexists. split; [exact E|]. cbn [rep_ranking_rows].
  intros rank r Hin. apply in_map_iff in Hin.
  destruct Hin as ([rk [n k]] & Er & Hin). cbn [fst snd] in Er.
  inversion Er; subst. cbn [row_label numeric_row].
  apply In_enumerate in Hin. apply In_sorted in Hin. destruct Hin as [Hn _].
  split; [exact Hn|]. intro Hd. apply no_data_nil in Hd.
  pose proof (resolver_stats_eq fsqrt results ds n) as Hs.
  rewrite Hd in Hs. cbn in Hs. inversion Hs as [Hst].
  reflexivity.
Qed.

(** C1, on the table of the instance: resolver A has no valid sample, and
    the four statistics columns of its line in the ranking table read nan,
    not N/A. *)
Theorem ranking_row_without_data :
  no_data Instance.table12 Instance.ds2 "A" = true
  /\ exists out,
       report Instance.qsqrt Instance.table12 Instance.rs3 Instance.ds2
       = Ok out
       /\ map snd (rep_ranking_rows out)
          = [ mk_row "C" "5.00" "5.00" "5.00" "0.00";
              mk_row "B" "21.67" "10.00" "30.00" "10.41";
              mk_row "A" "nan" "nan" "nan" "nan" ]
       /\ ~ In (mk_row "A" NA NA NA NA) (map snd (rep_ranking_rows out)).
Proof.
  split; [reflexivity|].
  destruct (report_ok Instance.qsqrt rs3_wf table12_populated)
    as (ov_rows & bd & v & E & _).
  eexists. split; [exact E|]. cbn [rep_ranking_rows].
  assert (R : map snd
    (map (fun it : nat * (string * pyfloat) =>
            (fst it,
             numeric_row (fst (snd it))
               (resolver_stats Instance.qsqrt Instance.table12 Instance.ds2
                  (fst (snd it)))))
       (enumerate 1
          (py_sorted snd
             (map (fun n : string =>
                     (n, ranking_key
                           (resolver_stats Instance.qsqrt Instance.table12
                              Instance.ds2 n)))
                (keys Instance.rs3)))))
    = [ mk_row "C" "5.00" "5.00" "5.00" "0.00";
        mk_row "B" "21.67" "10.00" "30.00" "10.41";
        mk_row "A" "nan" "nan" "nan" "nan" ]) by (vm_compute; reflexivity).
  rewrite R. split; [reflexivity|].
  cbn [In]. unfold NA. intros [H|[H|[H|[]]]]; discriminate.
Qed.

(* ------------------------------------------------------------------ *)
(** ** The measurement loop *)

Lemma dict_set_get_same (V : Type) (k : string) (v : V) (d : pydict V) :
  dict_get k d = Some v -> dict_set k v d = d.
Proof.
  induction d as [|[k' v'] d IH]; simpl; [discriminate|].
  destruct (String.eqb k k') eqn:E.
  - apply String.eqb_eq in E. intro H. inversion H. now subst.
  - intro H. now rewrite IH.
Qed.

Lemma dict_set_set (V : Type) (k : string) (v v' : V) (d : pydict V) :
  dict_set k v (dict_set k v' d) = dict_set k v d.
Proof.
  induction d as [|[k0 v0] d IH]; simpl.
  - now rewrite String.eqb_refl.
  - destruct (String.eqb k k0) eqn:E; simpl; rewrite ?E, ?String.eqb_refl;
      [reflexivity | now rewrite IH].
Qed.

Lemma outcomes_app (World : Type)
  (resolve : World -> string -> string -> outcome * World)
  (w : World) (q1 q2 : list (string * string)) :
  outcomes resolve w (q1 ++ q2)
  = (fst (outcomes resolve w q1)
       ++ fst (outcomes resolve (snd (outcomes resolve w q1)) q2),
     snd (outcomes resolve (snd (outcomes resolve w q1)) q2)).
Proof.
  revert w. induction q1 as [|[ip d] q1 IH]; intro w.
  - cbn. now destruct (outcomes resolve w q2).
  - cbn [app outcomes]. destruct (resolve w ip d) as [o w1]. rewrite IH.
    destruct (outcomes resolve w1 q1) as [os w2]. reflexivity.
Qed.

(** The progress lines of one (resolver, domain) pair. *)
Lemma filter_ev_at_all (n d : string) (ks : list nat) (evs : list event) :
  map ev_key evs = map (fun k => (n, d, k)) ks ->
  filter (ev_at n d) evs = evs.
Proof.
  revert ks. induction evs as [|ev evs IH]; intros ks H; [reflexivity|].
  destruct ks as [|k ks]; [discriminate|]. cbn [map] in H.
  injection H as Hr Hd Hk Hrest.
  cbn [filter]. unfold ev_at at 1.
  rewrite Hr, Hd, !String.eqb_refl. cbn [andb]. f_equal. exact (IH ks Hrest).
Qed.

Lemma filter_ev_at_none (n d : string) (evs : list event) :
  Forall (fun ev => ev_resolver ev <> n \/ ev_domain ev <> d) evs ->
  filter (ev_at n d) evs = [].
Proof.
  induction 1 as [|ev evs Hev _ IH]; [reflexivity|].
  cbn [filter]. unfold ev_at at 1.
  destruct (String.eqb (ev_resolver ev) n) eqn:E1;
    destruct (String.eqb (ev_domain ev) d) eqn:E2; cbn [andb]; auto.
  apply String.eqb_eq in E1, E2. tauto.
Qed.

Lemma keys_of_domain_loop (name : string) (ks : list nat) (ds : list string)
  (evs : list event) :
  map ev_key evs = flat_map (fun d => map (fun k => (name, d, k)) ks) ds ->
  Forall (fun ev => ev_resolver ev = name /\ In (ev_domain ev) ds) evs.
Proof.
  intro H. apply Forall_forall. intros ev Hin.
  apply (in_map ev_key) in Hin. rewrite H in Hin.
  apply in_flat_map in Hin. destruct Hin as (d & Hd & Hin).
  apply in_map_iff in Hin. destruct Hin as (k & E & _).
  unfold ev_key in E. inversion E. subst. auto.
Qed.

Lemma keys_of_matrix (rs : pydict string) (ds : list string) (trials : nat)
  (evs : list event) :
  map ev_key evs = matrix rs ds trials ->
  Forall (fun ev => In (ev_resolver ev) (keys rs)) evs.
Proof.
  intro H. apply Forall_forall. intros ev Hin.
  apply (in_map ev_key) in Hin. rewrite H in Hin.
  unfold matrix in Hin. apply in_flat_map in Hin.
  destruct Hin as (item & Hitem & Hin).
  apply in_flat_map in Hin. destruct Hin as (d & Hd & Hin).
  apply in_map_iff in Hin. destruct Hin as (k & E & _).
  unfold ev_key in E. inversion E. unfold keys. now apply in_map.
Qed.

Section Run.
Variable World : Type.
Variable resolve : World -> string -> string -> outcome * World.

Let st : Type := state World.

Lemma for_each_cons (A : Type) (x : A) (l : list A) (body : A -> M World unit)
  (s : st) :
  for_each (x :: l) body s
  = match body x s with
    | (Ok _, s') => for_each l body s'
    | (Exn e, s') => (Exn e, s')
    end.
Proof. reflexivity. Qed.

Lemma append_sample_ok (name d : string) (x : sample) (s : st)
  (inner : pydict (list sample)) (l : list sample) :
  dict_get name (st_results s) = Some inner ->
  dict_get d inner = Some l ->
  append_sample name d x s
  = (Ok tt,
     mk_state (st_world s)
              (dict_set name (dict_set d (l ++ [x]) inner) (st_results s))
              (st_log s)).
Proof.
  intros Hn Hd. unfold append_sample, lookup. rewrite Hn, Hd. reflexivity.
Qed.

(** One trial: whatever the query does, a sample is appended and a line is
    printed. *)
Lemma trial_body_ok (name ip d : string) (k : nat) (s : st)
  (inner : pydict (list sample)) (l : list sample) :
  dict_get name (st_results s) = Some inner ->
  dict_get d inner = Some l ->
  let o := fst (resolve (st_world s) ip d) in
  let ev := mk_event name d k (outcome_result o) in
  trial_body resolve name ip d k s
  = (Ok tt,
     mk_state (snd (resolve (st_world s) ip d))
              (dict_set name (dict_set d (l ++ [ev_sample ev]) inner)
                        (st_results s))
              (st_log s ++ [ev])).
Proof.
  intros Hn Hd o ev. subst o ev.
  cbv [trial_body try_except bind seq_ timed_resolve].
  destruct (resolve (st_world s) ip d) as [[t0 t1|e] w]; cbn [fst snd];
    rewrite (@append_sample_ok name d _ (mk_state w (st_results s) (st_log s))
               inner l Hn Hd);
    reflexivity.
Qed.

Lemma trial_loop_ok (name ip d : string) (ks : list nat) (s : st)
  (inner : pydict (list sample)) (l : list sample) :
  dict_get name (st_results s) = Some inner ->
  dict_get d inner = Some l ->
  let run := outcomes resolve (st_world s) (repeat (ip, d) (List.length ks)) in
  exists evs,
    for_each ks (trial_body resolve name ip d) s
    = (Ok tt,
       mk_state (snd run)
                (dict_set name (dict_set d (l ++ map ev_sample evs) inner)
                          (st_results s))
                (st_log s ++ evs))
    /\ map ev_key evs = map (fun k => (name, d, k)) ks
    /\ map ev_result evs = map outcome_result (fst run).
Proof.
  revert s inner l. induction ks as [|k ks IH]; intros s inner l Hn Hd run.
  - exists []. subst run. cbn. rewrite !app_nil_r.
    rewrite (@dict_set_get_same _ _ _ _ Hd), (@dict_set_get_same _ _ _ _ Hn).
    destruct s. auto.
  - rewrite for_each_cons, (@trial_body_ok name ip d k s inner l Hn Hd).
    set (o := fst (resolve (st_world s) ip d)).
    set (ev := mk_event name d k (outcome_result o)).
    set (s1 := mk_state _ _ _).
    destruct (IH s1 (dict_set d (l ++ [ev_sample ev]) inner)
                (l ++ [ev_sample ev])) as (evs & E & Hk & Hr).
    { subst s1. cbn [st_results]. apply dict_get_set_same. }
    { apply dict_get_set_same. }
    exists (ev :: evs). rewrite E. subst s1. cbn [st_results st_world st_log].
    rewrite !dict_set_set. rewrite <- !app_assoc. cbn [app map].
    subst run. cbn [List.length repeat outcomes].
    cbn [st_world] in Hr.
    destruct (resolve (st_world s) ip d) as [o' w1] eqn:Eo.
    subst o. cbn [fst snd] in *.
    destruct (outcomes resolve w1 (repeat (ip, d) (List.length ks)))
      as [os w2] eqn:Eos.
    cbn [fst snd map] in *. subst ev. cbn [ev_key ev_resolver ev_domain
      ev_trial ev_result]. rewrite Hk, Hr. auto.
Qed.

Lemma domain_body_ok (name ip : string) (trials : nat) (d : string) (s : st)
  (inner : pydict (list sample)) :
  dict_get name (st_results s) = Some inner ->
  let run := outcomes resolve (st_world s) (repeat (ip, d) trials) in
  exists evs,
    domain_body resolve name ip trials d s
    = (Ok tt,
       mk_state (snd run)
                (dict_set name (dict_set d (map ev_sample evs) inner)
                          (st_results s))
                (st_log s ++ evs))
    /\ map ev_key evs = map (fun k => (name, d, k)) (seq 1 trials)
    /\ map ev_result evs = map outcome_result (fst run).
Proof.
  intros Hn run.
  set (s1 := mk_state (st_world s)
               (dict_set name (dict_set d [] inner) (st_results s))
               (st_log s)).
  assert (E1 : set_samples name d [] s = (Ok tt, s1)).
  { unfold set_samples, lookup. rewrite Hn. reflexivity. }
  destruct (@trial_loop_ok name ip d (seq 1 trials) s1
              (dict_set d [] inner) [])
    as (evs & E & Hk & Hr).
  { subst s1. cbn [st_results]. apply dict_get_set_same. }
  { apply dict_get_set_same. }
  exists evs. unfold domain_body, seq_, bind. rewrite E1, E.
  subst s1. cbn [st_results st_world st_log app] in *.
  rewrite length_seq in *. rewrite !dict_set_set. auto.
Qed.

Lemma domain_loop_ok (name ip : string) (trials : nat) (ds : list string)
  (s : st) (inner : pydict (list sample)) :
  dict_get name (st_results s) = Some inner ->
  let run := outcomes resolve (st_world s)
               (flat_map (fun d => repeat (ip, d) trials) ds) in
  exists evs inner',
    for_each ds (domain_body resolve name ip trials) s
    = (Ok tt,
       mk_state (snd run) (dict_set name inner' (st_results s))
                (st_log s ++ evs))
    /\ map ev_key evs
       = flat_map (fun d => map (fun k => (name, d, k)) (seq 1 trials)) ds
    /\ map ev_result evs = map outcome_result (fst run)
    /\ (forall d, ~ In d ds -> dict_get d inner' = dict_get d inner)
    /\ (forall d, In d ds ->
          exists l, dict_get d inner' = Some l /\ List.length l = trials)
    /\ (NoDup ds -> forall d, In d ds ->
          dict_get d inner'
          = Some (map ev_sample (filter (ev_at name d) evs))).
Proof.
  revert s inner. induction ds as [|d ds IH]; intros s inner Hn run.
  - exists [], inner. subst run. cbn.
    rewrite app_nil_r, (@dict_set_get_same _ _ _ _ Hn). destruct s.
    repeat split; auto; tauto.
  - destruct (@domain_body_ok name ip trials d s inner Hn)
      as (evd & Ed & Hkd & Hrd).
    set (inner1 := dict_set d (map ev_sample evd) inner) in *.
    set (s1 := mk_state _ _ _) in Ed.
    destruct (IH s1 inner1) as (evr & inner' & Er & Hkr & Hrr & P2 & P1 & P3).
    { subst s1. cbn [st_results]. apply dict_get_set_same. }
    exists (evd ++ evr), inner'.
    assert (Hlen : List.length (map ev_sample evd) = trials).
    { rewrite length_map, <- (length_map ev_key), Hkd, length_map.
      apply length_seq. }
    pose proof (@keys_of_domain_loop _ _ _ _ Hkr) as Hfr.
    split; [|split; [|split; [|split; [|split]]]].
    + rewrite for_each_cons, Ed, Er. subst s1 run.
      cbn [st_results st_world st_log flat_map].
      rewrite dict_set_set, app_assoc, outcomes_app. reflexivity.
    + rewrite map_app, Hkd, Hkr. reflexivity.
    + subst run. cbn [flat_map]. rewrite outcomes_app. cbn [fst].
      rewrite !map_app, Hrd. subst s1. cbn [st_world] in Hrr.
      rewrite Hrr. reflexivity.
    + intros d0 Hd0. rewrite P2 by (intro; apply Hd0; now right).
      subst inner1. apply dict_get_set_other.
      intro; apply Hd0; now left.
    + intros d0 Hd0. destruct (in_dec string_dec d0 ds) as [Hin|Hnin].
      * now apply P1.
      * destruct Hd0 as [<-|Hd0]; [|contradiction].
        rewrite (P2 _ Hnin). subst inner1. rewrite dict_get_set_same. eauto.
    + intros Hnd d0 Hd0. inversion Hnd as [|? ? Hd Hnd']; subst.
      rewrite filter_app.
      destruct (in_dec string_dec d0 ds) as [Hin|Hnin].
      * rewrite (P3 Hnd' _ Hin).
        rewrite (@filter_ev_at_none name d0 evd); [reflexivity|].
        apply Forall_forall. intros ev Hev. right.
        apply (in_map ev_key) in Hev. rewrite Hkd in Hev.
        apply in_map_iff in Hev. destruct Hev as (k & E & _).
        unfold ev_key in E. inversion E. intro; subst. contradiction.
      * destruct Hd0 as [<-|Hd0]; [|contradiction].
        rewrite (P2 _ Hnin). subst inner1. rewrite dict_get_set_same.
        rewrite (@filter_ev_at_all _ _ _ _ Hkd).
        rewrite (@filter_ev_at_none name d evr); [now rewrite app_nil_r|].
        eapply Forall_impl; [|exact Hfr]. intros ev [_ Hev]. right.
        intro; subst. contradiction.
Qed.

(** The whole measurement loop, from any state. *)
Lemma run_benchmark_ok (rs : pydict string) (ds : list string) (trials : nat)
  (s : st) :
  let run := outcomes resolve (st_world s) (queries rs ds trials) in
  exists evs results',
    run_benchmark resolve rs ds trials s
    = (Ok tt, mk_state (snd run) results' (st_log s ++ evs))
    /\ map ev_key evs = matrix rs ds trials
    /\ map ev_result evs = map outcome_result (fst run)
    /\ (forall n, ~ In n (keys rs) ->
          dict_get n results' = dict_get n (st_results s))
    /\ (forall n d, In n (keys rs) -> In d ds ->
          exists inner l,
            dict_get n results' = Some inner
            /\ dict_get d inner = Some l /\ List.length l = trials)
    /\ (dict_wf rs -> NoDup ds ->
        forall n d, In n (keys rs) -> In d ds ->
          samples_at results' n d
          = map ev_sample (filter (ev_at n d) evs)).
Proof.
  revert s. induction rs as [|[name ip] rs IH]; intros s run.
  - exists [], (st_results s). subst run. cbn. rewrite app_nil_r. destruct s.
    repeat split; auto; tauto.
  - set (s0 := mk_state (st_world s) (dict_set name [] (st_results s))
                        (st_log s)).
    destruct (@domain_loop_ok name ip trials ds s0 [])
      as (evd & inner' & Ed & Hkd & Hrd & _ & P1 & P3).
    { subst s0. cbn [st_results]. apply dict_get_set_same. }
    set (s1 := mk_state _ _ _) in Ed.
    destruct (IH s1) as (evr & results' & Er & Hkr & Hrr & Q0 & Q1 & Q3).
    exists (evd ++ evr), results'.
    assert (Hname : forall n, ~ In n (keys rs) -> n = name ->
                      dict_get n results' = Some inner').
    { intros n Hn ->. rewrite (Q0 _ Hn). subst s1 s0. cbn [st_results].
      rewrite dict_set_set. apply dict_get_set_same. }
    pose proof (@keys_of_matrix _ _ _ _ Hkr) as Hfr.
    pose proof (@keys_of_domain_loop _ _ _ _ Hkd) as Hfd.
    split; [|split; [|split; [|split; [|split]]]].
    + unfold run_benchmark. rewrite for_each_cons.
      unfold seq_ at 1, bind at 1. unfold set_resolver at 1. fold s0.
      rewrite Ed. fold (run_benchmark resolve rs ds trials). rewrite Er.
      subst s1 s0 run. cbn [st_world st_results st_log].
      unfold queries. cbn [flat_map snd]. fold (queries rs ds trials).
      rewrite outcomes_app, app_assoc. reflexivity.
    + unfold matrix. cbn [flat_map fst]. fold (matrix rs ds trials).
      rewrite map_app, Hkd, Hkr. reflexivity.
    + subst run. unfold queries. cbn [flat_map snd].
      fold (queries rs ds trials). rewrite outcomes_app. cbn [fst].
      rewrite !map_app. subst s1 s0. cbn [st_world] in *.
      rewrite Hrd, Hrr. reflexivity.
    + intros n Hn. unfold keys in Hn. cbn [map fst In] in Hn.
      rewrite Q0 by tauto. subst s1 s0. cbn [st_results].
      rewrite dict_set_set. apply dict_get_set_other. intro; subst; tauto.
    + intros n d Hn Hd. destruct (in_dec string_dec n (keys rs)) as [Hin|Hnin].
      * now apply Q1.
      * destruct Hn as [Hn|Hn]; [|contradiction]. cbn [fst] in Hn.
        destruct (P1 d Hd) as (l & Hl & Hlen).
        exists inner', l. rewrite (Hname n Hnin (eq_sym Hn)). auto.
    + intros Hwf Hnd n d Hn Hd. unfold dict_wf, keys in Hwf.
      cbn [map fst] in Hwf. inversion Hwf as [|? ? Hfresh Hwf']; subst.
      rewrite filter_app.
      destruct (in_dec string_dec n (keys rs)) as [Hin|Hnin].
      * rewrite (Q3 Hwf' Hnd n d Hin Hd).
        rewrite (@filter_ev_at_none n d evd); [reflexivity|].
        eapply Forall_impl; [|exact Hfd]. intros ev [Hev _]. left.
        rewrite Hev. intro; subst. contradiction.
      * destruct Hn as [Hn|Hn]; [|contradiction]. cbn [fst] in Hn. subst n.
        unfold samples_at. rewrite (Hname name Hnin eq_refl).
        rewrite (P3 Hnd d Hd).
        rewrite (@filter_ev_at_none name d evr); [now rewrite app_nil_r|].
        eapply Forall_impl; [|exact Hfr]. intros ev Hev. left.
        intro E. apply Hnin. rewrite <- E. exact Hev.
Qed.

(** The table that the run leaves is populated. *)
Lemma run_benchmark_populated (rs : pydict string) (ds : list string)
  (trials : nat) (w : World) :
  exists s',
    run_benchmark resolve rs ds trials (mk_state w [] []) = (Ok tt, s')
    /\ populated (st_results s') (keys rs) ds.
Proof.
  destruct (run_benchmark_ok rs ds trials (mk_state w [] []))
    as (evs & results' & E & _ & _ & _ & Q1 & _).
  eexists. split; [exact E|]. cbn [st_results]. intros n d Hn Hd.
  destruct (Q1 n d Hn Hd) as (inner & l & H1 & H2 & _). eauto.
Qed.

End Run.

(* ------------------------------------------------------------------ *)
(** ** The keys of the progress lines *)

Lemma filter_flat_map (A B : Type) (p : B -> bool) (f : A -> list B)
  (l : list A) :
  filter p (flat_map f l) = flat_map (fun x => filter p (f x)) l.
Proof.
  induction l as [|x l IH]; [reflexivity|].
  cbn [flat_map]. now rewrite filter_app, IH.
Qed.

Lemma flat_map_nil (A B : Type) (f : A -> list B) (l : list A) :
  (forall x, In x l -> f x = []) -> flat_map f l = [].
Proof.
  induction l as [|x l IH]; intro H; [reflexivity|].
  cbn [flat_map]. rewrite (H x) by now left.
  apply IH. intros y Hy. apply H. now right.
Qed.

Lemma flat_map_single (A B : Type) (f : A -> list B) (l : list A) (x : A) :
  NoDup l -> In x l -> (forall y, In y l -> y <> x -> f y = []) ->
  flat_map f l = f x.
Proof.
  induction l as [|y l IH]; intros Hnd Hin H; [contradiction|].
  inversion Hnd as [|? ? Hy Hnd']; subst. cbn [flat_map].
  destruct Hin as [->|Hin].
  - rewrite flat_map_nil; [apply app_nil_r|].
    intros z Hz. apply H; [now right | intro; subst; contradiction].
  - rewrite (H y) by (try (now left); intro; subst; contradiction).
    apply IH; auto. intros z Hz. apply H. now right.
Qed.

Lemma filter_key_at (n d n' d' : string) (ks : list nat) :
  filter (key_at n d) (map (fun k => (n', d', k)) ks)
  = if String.eqb n' n && String.eqb d' d
    then map (fun k => (n', d', k)) ks else [].
Proof.
  induction ks as [|k ks IH]; cbn [map filter].
  - now destruct (String.eqb n' n && String.eqb d' d).
  - unfold key_at at 1. cbn [fst snd]. rewrite IH.
    now destruct (String.eqb n' n && String.eqb d' d).
Qed.

Lemma map_key_filter (n d : string) (evs : list event) :
  map ev_key (filter (ev_at n d) evs) = filter (key_at n d) (map ev_key evs).
Proof.
  induction evs as [|ev evs IH]; [reflexivity|].
  cbn [map filter]. change (key_at n d (ev_key ev)) with (ev_at n d ev).
  destruct (ev_at n d ev); cbn [map]; now rewrite IH.
Qed.

Lemma dict_wf_item (V : Type) (d : pydict V) (x y : string * V) :
  dict_wf d -> In x d -> In y d -> fst x = fst y -> x = y.
Proof.
  unfold dict_wf, keys. induction d as [|z d IH]; intros Hwf Hx Hy E;
    [contradiction|].
  cbn [map] in Hwf. inversion Hwf as [|? ? Hz Hwf']; subst.
  destruct Hx as [->|Hx]; destruct Hy as [->|Hy].
  - reflexivity.
  - exfalso. apply Hz. rewrite E. now apply in_map.
  - exfalso. apply Hz. rewrite <- E. now apply in_map.
  - now apply IH.
Qed.

(** In the matrix of a duplicate-free configuration, the trials of one
    (resolver, domain) pair are the trials 1..n in order. *)
Lemma matrix_at (rs : pydict string) (ds : list string) (trials : nat)
  (n d : string) :
  dict_wf rs -> NoDup ds -> In n (keys rs) -> In d ds ->
  filter (key_at n d) (matrix rs ds trials)
  = map (fun k => (n, d, k)) (seq 1 trials).
Proof.
  intros Hwf Hnd Hn Hd. unfold matrix. rewrite filter_flat_map.
  assert (Hrow : forall item : string * string,
    filter (key_at n d)
      (flat_map (fun domain => map (fun k => (fst item, domain, k))
                                   (seq 1 trials)) ds)
    = if String.eqb (fst item) n
      then map (fun k => (fst item, d, k)) (seq 1 trials) else []).
  { intro item. rewrite filter_flat_map.
    destruct (String.eqb (fst item) n) eqn:E.
    - rewrite (@flat_map_single _ _ _ ds d Hnd Hd).
      + rewrite filter_key_at, E, String.eqb_refl. reflexivity.
      + intros y _ Hy. rewrite filter_key_at.
        replace (String.eqb y d) with false; [now rewrite andb_false_r|].
        symmetry. now apply String.eqb_neq.
    - apply flat_map_nil. intros y _. rewrite filter_key_at, E. reflexivity. }
  unfold keys in Hn. apply in_map_iff in Hn. destruct Hn as (item & Hi & Hin).
  unfold dict_wf, keys in Hwf.
  rewrite (@flat_map_single _ _ _ rs item).
  - rewrite Hrow, Hi, String.eqb_refl. reflexivity.
  - eapply NoDup_map_inv. exact Hwf.
  - exact Hin.
  - intros y Hy Hne. rewrite Hrow.
    destruct (String.eqb (fst y) n) eqn:E; [|reflexivity].
    apply String.eqb_eq in E. exfalso. apply Hne.
    apply (@dict_wf_item _ rs y item Hwf Hy Hin). congruence.
Qed.

(* ------------------------------------------------------------------ *)
(** ** Claims about the run *)

(** C7.  Whatever the queries do, the run ends without an exception; it asks
    exactly the queries of the resolver x domain x trial matrix, in order; a
    query that raises gives a progress line with the error and a failure
    marker as the sample of that trial, and the later trials, domains and
    resolvers are processed all the same. *)
Theorem run_benchmark_full_coverage (World : Type)
  (resolve : World -> string -> string -> outcome * World)
  (rs : pydict string) (ds : list string) (trials : nat) (w : World) :
  let run := outcomes resolve w (queries rs ds trials) in
  exists evs results',
    run_benchmark resolve rs ds trials (mk_state w [] [])
    = (Ok tt, mk_state (snd run) results' evs)
    /\ map ev_key evs = matrix rs ds trials
    /\ map ev_result evs = map outcome_result (fst run)
    /\ (forall ev, In ev evs ->
          (ev_sample ev = None <-> exists e, ev_result ev = Exn e))
    /\ (dict_wf rs -> NoDup ds ->
        forall n d, In n (keys rs) -> In d ds ->
          samples_at results' n d
          = map ev_sample (filter (ev_at n d) evs)).
Proof.
  intro run.
  destruct (run_benchmark_ok resolve rs ds trials (mk_state w [] []))
    as (evs & results' & E & Hk & Hr & _ & _ & Q3).
  exists evs, results'. cbn [app st_log st_world] in *.
  repeat split; auto.
  - unfold ev_sample. destruct (ev_result ev); [discriminate | eauto].
  - unfold ev_sample. intros [e He]. now rewrite He.
Qed.

Lemma run_benchmark_full_coverage_witness :
  exists evs results',
    run_benchmark Instance.play Instance.rs3 Instance.ds2 2
      (mk_state Instance.w12 [] [])
    = (Ok tt, mk_state [] results' evs)
    /\ map ev_key evs = matrix Instance.rs3 Instance.ds2 2
    /\ samples_at results' "B" "y.example"
       = map ev_sample (filter (ev_at "B" "y.example") evs).
Proof.
  destruct (run_benchmark_full_coverage Instance.play Instance.rs3
              Instance.ds2 2 Instance.w12)
    as (evs & results' & E & Hk & _ & _ & H).
  exists evs, results'. split; [exact E|]. split; [exact Hk|].
  apply H.
  - exact rs3_wf.
  - repeat constructor; cbn [In]; intuition discriminate.
  - cbn. tauto.
  - cbn. tauto.
Defined.

(** C9.  When the run is over, the table holds, for every resolver and
    every domain, a list of exactly [trials] samples; the samples are those
    of trials 1, 2, ... in this order; and the report is computed from this
    finished table. *)
Theorem results_table_complete (fsqrt : Qc -> Qc) (World : Type)
  (resolve : World -> string -> string -> outcome * World)
  (rs : pydict string) (ds : list string) (trials : nat) (w : World) :
  exists s',
    run_benchmark resolve rs ds trials (mk_state w [] []) = (Ok tt, s')
    /\ (forall n d, In n (keys rs) -> In d ds ->
          exists inner l,
            dict_get n (st_results s') = Some inner
            /\ dict_get d inner = Some l
            /\ List.length l = trials)
    /\ (dict_wf rs -> NoDup ds ->
        forall n d, In n (keys rs) -> In d ds ->
          map ev_trial (filter (ev_at n d) (st_log s')) = seq 1 trials
          /\ samples_at (st_results s') n d
             = map ev_sample (filter (ev_at n d) (st_log s')))
    /\ program fsqrt resolve rs ds trials w
       = report fsqrt (st_results s') rs ds.
Proof.
  destruct (run_benchmark_ok resolve rs ds trials (mk_state w [] []))
    as (evs & results' & E & Hk & _ & _ & Q1 & Q3).
  eexists. split; [exact E|]. cbn [st_results st_log app].
  split; [exact Q1|]. split.
  - intros Hwf Hnd n d Hn Hd. split; [|now apply Q3].
    assert (Hkeys : map ev_key (filter (ev_at n d) evs)
                    = map (fun k => (n, d, k)) (seq 1 trials)).
    { rewrite map_key_filter, Hk. now apply matrix_at. }
    apply (f_equal (map snd)) in Hkeys. rewrite !map_map in Hkeys.
    cbn [snd ev_key] in Hkeys. rewrite map_id in Hkeys. exact Hkeys.
  - unfold program. rewrite E. reflexivity.
Qed.

Lemma results_table_complete_witness :
  exists s',
    run_benchmark Instance.play Instance.rs3 Instance.ds2 2
      (mk_state Instance.w12 [] []) = (Ok tt, s')
    /\ map ev_trial (filter (ev_at "C" "x.example") (st_log s')) = [1; 2]%nat.
Proof.
  destruct (results_table_complete Instance.qsqrt Instance.play Instance.rs3
              Instance.ds2 2 Instance.w12)
    as (s' & E & _ & H & _).
  exists s'. split; [exact E|].
  refine (proj1 (H rs3_wf _ "C" "x.example" _ _)).
  - repeat constructor; cbn [In]; intuition discriminate.
  - cbn. tauto.
  - cbn. tauto.
Defined.

(** C8.  The program ends with a report.  When some resolver has a finite
    ranking key, the verdict names the first resolver of the ranking, whose
    key is least, with its average; the verdict is the no-data message
    exactly when every ranking key is positive infinity, which is when no
    resolver has a valid sample. *)
Theorem final_verdict (fsqrt : Qc -> Qc) (World : Type)
  (resolve : World -> string -> string -> outcome * World)
  (rs : pydict string) (ds : list string) (trials : nat) (w : World) :
  dict_wf rs ->
  exists s' out,
    run_benchmark resolve rs ds trials (mk_state w [] []) = (Ok tt, s')
    /\ program fsqrt resolve rs ds trials w = Ok out
    /\ ((exists n k, In (n, k) (rep_ranking_stats out) /\ k <> PInf) ->
        exists best a st,
          hd_error (rep_sorted_resolvers out) = Some (best, Fin a)
          /\ lookup best (rep_overall_stats out) = Ok st
          /\ avg st = Fin a
          /\ rep_verdict out = verdict_message best (Fin a)
          /\ forall n k, In (n, k) (rep_ranking_stats out) ->
               fle (Fin a) k = true)
    /\ (rep_verdict out = no_data_message
        <-> forall n k, In (n, k) (rep_ranking_stats out) -> k = PInf)
    /\ (forall n k, In (n, k) (rep_ranking_stats out) ->
          (k = PInf <-> no_data (st_results s') ds n = true)).
Proof.
  intro Hwf.
  destruct (run_benchmark_populated resolve rs ds trials w) as (s' & E & Hp).
  destruct (report_ok fsqrt Hwf Hp) as (ov_rows & bd & v & Er & Ev).
  exists s'. eexists. split; [exact E|]. split.
  { unfold program. rewrite E. cbn [rbind]. exact Er. }
  cbn [rep_ranking_stats rep_sorted_resolvers rep_overall_stats rep_verdict].
  destruct (verdict_spec fsqrt (st_results s') rs ds Ev) as [V1 V2].
  split; [|split; [exact V2|]].
  - intro Hex. destruct (V1 Hex) as (best & a & rest & Es & Hb & Ha & Hv & Hl).
    exists best, a, (resolver_stats fsqrt (st_results s') ds best).
    rewrite Es. repeat split; auto.
    now apply lookup_map_keys.
  - intros n k Hin. apply in_map_iff in Hin. destruct Hin as (n' & En & _).
    inversion En; subst.
    rewrite <- (key_PInf_no_data fsqrt (st_results s') ds n).
    apply iff_sym, feq_PInf.
Qed.

Lemma final_verdict_witness :
  exists s' out,
    run_benchmark Instance.play Instance.rs3 Instance.ds2 2
      (mk_state Instance.w12 [] []) = (Ok tt, s')
    /\ program Instance.qsqrt Instance.play Instance.rs3 Instance.ds2 2
         Instance.w12 = Ok out
    /\ (rep_verdict out = no_data_message
        <-> forall n k, In (n, k) (rep_ranking_stats out) -> k = PInf).
Proof.
  destruct (final_verdict Instance.qsqrt Instance.play (rs := Instance.rs3)
              Instance.ds2 2 Instance.w12 rs3_wf)
    as (s' & out & E & Ep & _ & H & _).
  exists s', out. auto.
Defined.

(* ------------------------------------------------------------------ *)
(** ** The script on concrete inputs *)

Lemma compute_stats_single_witness :
  compute_stats Instance.qsqrt [None; Some (Q2Qc (25 # 2)); Some (Q2Qc 0)]
  = Ok (mk_stats (Fin (Q2Qc (25 # 2))) (Fin (Q2Qc (25 # 2)))
                 (Fin (Q2Qc (25 # 2))) (Fin (Q2Qc 0)) 1).
Proof.
  refine (proj1 (proj1 (compute_stats_single Instance.qsqrt)
                   [None] [Some (Q2Qc 0)] (Q2Qc (25 # 2)) _ _ _)).
  - apply Forall_cons; [now left | apply Forall_nil].
  - apply Forall_cons; [|apply Forall_nil].
    right. exists (Q2Qc 0). split; [reflexivity | vm_compute; discriminate].
  - vm_compute. reflexivity.
Defined.

(** The configuration of the script has no repeated resolver name and no
    repeated domain. *)
Lemma configuration_wf : dict_wf resolvers /\ NoDup domains.
Proof.
  split.
  - unfold dict_wf, keys. apply (NoDup_count_occ' string_dec).
    intros x Hx. cbn in Hx.
    repeat (destruct Hx as [<-|Hx]; [vm_compute; reflexivity|]).
    contradiction.
  - apply (NoDup_count_occ' string_dec).
    intros x Hx. cbn in Hx.
    repeat (destruct Hx as [<-|Hx]; [vm_compute; reflexivity|]).
    contradiction.
Qed.

(** The run over the script [w12] builds the table [table12]. *)
Example run_w12 :
  st_results (snd (run_benchmark Instance.play Instance.rs3 Instance.ds2 2
                     (mk_state Instance.w12 [] [])))
  = Instance.table12.
Proof.
  unfold Instance.table12. cbn -[Qcmult Qcminus Q2Qc Instance.ms].
  repeat (f_equal; try (apply Qc_is_canon; vm_compute; reflexivity)).
Qed.

(** The ranking and the verdict that the program prints for [w12]. *)
Example program_w12 :
  match program Instance.qsqrt Instance.play Instance.rs3 Instance.ds2 2
          Instance.w12 with
  | Ok out => (map fst (rep_sorted_resolvers out), rep_verdict out)
  | Exn e => ([], e)
  end
  = (["C"; "B"; "A"],
     String "010" "Final Verdict: The fastest DNS resolver is 'C' with an average resolution time of 5.00 ms (cached values excluded).").
Proof. vm_compute. reflexivity. Qed.

(** When no query is ever answered, the program prints the no-data
    message. *)
Example program_offline :
  match program Instance.qsqrt Instance.play resolvers domains num_trials []
  with
  | Ok out => rep_verdict out
  | Exn e => e
  end
  = no_data_message.
Proof. vm_compute. reflexivity. Qed.

(* ------------------------------------------------------------------ *)
(** ** Further properties of the statistics *)

Lemma sum_lower_bound (l : list Qc) (m : Qc) :
  (forall x, In x l -> (m <= x)%Qc) ->
  (m * Qc_of_nat (List.length l) <= fold_right Qcplus (Q2Qc 0) l)%Qc.
Proof.
  induction l as [|y l IH]; intro H.
  - cbn [fold_right List.length]. change (Qc_of_nat 0) with (Q2Qc 0).
    rewrite Qcmult_0_r. apply Qcle_refl.
  - cbn [fold_right List.length]. rewrite Qc_of_nat_S.
    replace (m * (Qc_of_nat (List.length l) + Q2Qc 1))%Qc
      with (m + m * Qc_of_nat (List.length l))%Qc by ring.
    apply Qcplus_le_compat; [apply H; now left|].
    apply IH. intros x Hx. apply H. now right.
Qed.

Lemma sum_upper_bound (l : list Qc) (m : Qc) :
  (forall x, In x l -> (x <= m)%Qc) ->
  (fold_right Qcplus (Q2Qc 0) l <= m * Qc_of_nat (List.length l))%Qc.
Proof.
  induction l as [|y l IH]; intro H.
  - cbn [fold_right List.length]. change (Qc_of_nat 0) with (Q2Qc 0).
    rewrite Qcmult_0_r. apply Qcle_refl.
  - cbn [fold_right List.length]. rewrite Qc_of_nat_S.
    replace (m * (Qc_of_nat (List.length l) + Q2Qc 1))%Qc
      with (m + m * Qc_of_nat (List.length l))%Qc by ring.
    apply Qcplus_le_compat; [apply H; now left|].
    apply IH. intros x Hx. apply H. now right.
Qed.

Lemma mean_times_length (l : list Qc) :
  l <> [] ->
  (arithmetic_mean l * Qc_of_nat (List.length l))%Qc
  = fold_right Qcplus (Q2Qc 0) l.
Proof.
  intro H. unfold arithmetic_mean.
  assert (Hn : Qc_of_nat (List.length l) <> Q2Qc 0).
  { apply Qc_of_nat_neq0. destruct l; [congruence | simpl; lia]. }
  field. exact Hn.
Qed.

(** The mean lies between the least and the greatest element. *)
Lemma mean_between (l : list Qc) (mn mx : Qc) :
  l <> [] -> is_minimum mn l -> is_maximum mx l ->
  (mn <= arithmetic_mean l)%Qc /\ (arithmetic_mean l <= mx)%Qc.
Proof.
  intros Hne [_ Hmn] [_ Hmx].
  assert (Hpos : (Q2Qc 0 < Qc_of_nat (List.length l))%Qc).
  { apply Qc_of_nat_pos. destruct l; [congruence | simpl; lia]. }
  split; apply (Qcmult_lt_0_le_reg_r _ _ _ Hpos);
    rewrite (mean_times_length Hne).
  - now apply sum_lower_bound.
  - now apply sum_upper_bound.
Qed.

Lemma Qcmult_nonneg (x y : Qc) :
  (Q2Qc 0 <= x)%Qc -> (Q2Qc 0 <= y)%Qc -> (Q2Qc 0 <= x * y)%Qc.
Proof.
  intros Hx Hy. pose proof (Qcmult_le_compat_r _ _ _ Hx Hy) as H.
  now rewrite Qcmult_0_l in H.
Qed.

Lemma Qcmult_pos (x y : Qc) :
  (Q2Qc 0 < x)%Qc -> (Q2Qc 0 < y)%Qc -> (Q2Qc 0 < x * y)%Qc.
Proof.
  intros Hx Hy. pose proof (Qcmult_lt_compat_r _ _ _ Hy Hx) as H.
  now rewrite Qcmult_0_l in H.
Qed.

Lemma Qc_square_nonneg (x : Qc) : (Q2Qc 0 <= x * x)%Qc.
Proof.
  unfold Qcle. unfold Qcmult. rewrite !this_Q2Qc.
  unfold Qle. cbn. rewrite Z.mul_1_r. apply Z.square_nonneg.
Qed.

Lemma sum_nonneg (l : list Qc) :
  (forall x, In x l -> (Q2Qc 0 <= x)%Qc) ->
  (Q2Qc 0 <= fold_right Qcplus (Q2Qc 0) l)%Qc.
Proof.
  intro H. pose proof (@sum_lower_bound l (Q2Qc 0) H) as B.
  now rewrite Qcmult_0_l in B.
Qed.

Lemma Qc_of_nat_nonneg (n : nat) : (Q2Qc 0 <= Qc_of_nat n)%Qc.
Proof.
  unfold Qcle, Qc_of_nat. rewrite !this_Q2Qc. unfold Qle. simpl. lia.
Qed.

Lemma Qcinv_nonneg (x : Qc) : (Q2Qc 0 <= x)%Qc -> (Q2Qc 0 <= / x)%Qc.
Proof.
  unfold Qcle, Qcinv. rewrite !this_Q2Qc. apply Qinv_le_0_compat.
Qed.

(** The sample variance is never negative. *)
Lemma sample_variance_nonneg (l : list Qc) : (Q2Qc 0 <= sample_variance l)%Qc.
Proof.
  unfold sample_variance, Qcdiv. apply Qcmult_nonneg.
  - apply sum_nonneg. intros x Hx. apply in_map_iff in Hx.
    destruct Hx as (y & <- & _). apply Qc_square_nonneg.
  - apply Qcinv_nonneg, Qc_of_nat_nonneg.
Qed.

(** X1.  With at least one valid sample the four statistics are finite
    numbers, the minimum and the maximum are samples of the input, and
    0 < min <= avg <= max; the count is the number of valid samples, and
    the variance whose root is taken for two or more samples is not
    negative. *)
Theorem compute_stats_bounds (fsqrt : Qc -> Qc) (samples : list sample)
  (x : Qc) :
  In (Some x) samples -> (Q2Qc 0 < x)%Qc ->
  exists a mn mx sd n,
    compute_stats fsqrt samples
    = Ok (mk_stats (Fin a) (Fin mn) (Fin mx) (Fin sd) n)
    /\ In (Some mn) samples /\ In (Some mx) samples
    /\ (Q2Qc 0 < mn)%Qc /\ (mn <= a)%Qc /\ (a <= mx)%Qc
    /\ (mn <= x)%Qc /\ (x <= mx)%Qc
    /\ n = List.length (filter is_valid samples) /\ (1 <= n)%nat
    /\ ((2 <= n)%nat ->
        sd = fsqrt (sample_variance (valid_times samples))
        /\ (Q2Qc 0 <= sample_variance (valid_times samples))%Qc).
Proof.
  intros Hin Hx.
  assert (Hv : In x (valid_times samples))
    by (apply valid_times_positive; auto).
  assert (Hne : valid_times samples <> [])
    by (intro E; rewrite E in Hv; contradiction).
  destruct (@stats_of_times_cons fsqrt (valid_times samples) Hne)
    as (mn & mx & sd & E & Hmn & Hmx & _ & Hsd).
  destruct (mean_between Hne Hmn Hmx) as [H1 H2].
  exists (arithmetic_mean (valid_times samples)), mn, mx, sd,
    (List.length (valid_times samples)).
  pose proof (proj1 Hmn) as Imn. pose proof (proj1 Hmx) as Imx.
  apply valid_times_positive in Imn, Imx.
  split; [exact E|]. split; [tauto|]. split; [tauto|]. split; [tauto|].
  split; [exact H1|]. split; [exact H2|].
  split; [apply (proj2 Hmn); exact Hv|].
  split; [apply (proj2 Hmx); exact Hv|]. split; [|split].
  - rewrite <- valid_times_filter. now rewrite length_map.
  - destruct (valid_times samples); [congruence | simpl; lia].
  - intro Hn. split; [now apply Hsd | apply sample_variance_nonneg].
Qed.

Lemma compute_stats_bounds_witness :
  exists a mn mx sd n,
    compute_stats Instance.qsqrt
      [Some (Q2Qc 30); None; Some (Q2Qc 10); Some (Q2Qc 0)]
    = Ok (mk_stats (Fin a) (Fin mn) (Fin mx) (Fin sd) n)
    /\ (mn <= a)%Qc /\ (a <= mx)%Qc.
Proof.
  destruct (@compute_stats_bounds Instance.qsqrt
              [Some (Q2Qc 30); None; Some (Q2Qc 10); Some (Q2Qc 0)]
              (Q2Qc 10))
    as (a & mn & mx & sd & n & E & _ & _ & _ & H1 & H2 & _).
  - cbn. tauto.
  - vm_compute. reflexivity.
  - exists a, mn, mx, sd, n. auto.
Defined.

Lemma mean_constant (l : list Qc) (c : Qc) :
  l <> [] -> (forall x, In x l -> x = c) -> arithmetic_mean l = c.
Proof.
  intros Hne H. apply Qcle_antisym.
  - apply (@mean_between l c c Hne).
    + split; [|intros x Hx; rewrite (H x Hx); apply Qcle_refl].
      destruct l as [|y l]; [congruence|]. left. apply H. now left.
    + split; [|intros x Hx; rewrite (H x Hx); apply Qcle_refl].
      destruct l as [|y l]; [congruence|]. left. apply H. now left.
  - apply (@mean_between l c c Hne).
    + split; [|intros x Hx; rewrite (H x Hx); apply Qcle_refl].
      destruct l as [|y l]; [congruence|]. left. apply H. now left.
    + split; [|intros x Hx; rewrite (H x Hx); apply Qcle_refl].
      destruct l as [|y l]; [congruence|]. left. apply H. now left.
Qed.

Lemma sum_zero (l : list Qc) :
  (forall x, In x l -> x = Q2Qc 0) -> fold_right Qcplus (Q2Qc 0) l = Q2Qc 0.
Proof.
  induction l as [|y l IH]; intro H; [reflexivity|].
  cbn [fold_right]. rewrite (H y) by now left.
  rewrite IH by (intros x Hx; apply H; now right). ring.
Qed.

Lemma sample_variance_constant (l : list Qc) (c : Qc) :
  l <> [] -> (forall x, In x l -> x = c) -> sample_variance l = Q2Qc 0.
Proof.
  intros Hne H. unfold sample_variance. rewrite (mean_constant Hne H).
  rewrite sum_zero; [unfold Qcdiv; apply Qcmult_0_l|].
  intros x Hx. apply in_map_iff in Hx. destruct Hx as (y & <- & Hy).
  rewrite (H y Hy). ring.
Qed.

(** X2.  When two or more samples pass the filter and they are all equal,
    the standard deviation is 0 (for a square root exact on squares), while
    average, minimum and maximum are the common value. *)
Theorem compute_stats_equal_samples (fsqrt : Qc -> Qc)
  (samples : list sample) (c : Qc) :
  exact_on_squares fsqrt ->
  (2 <= List.length (valid_times samples))%nat ->
  (forall x, In (Some x) samples -> (Q2Qc 0 < x)%Qc -> x = c) ->
  compute_stats fsqrt samples
  = Ok (mk_stats (Fin c) (Fin c) (Fin c) (Fin (Q2Qc 0))
                 (List.length (valid_times samples))).
Proof.
  intros Hsq Hn Hc.
  assert (Hall : forall x, In x (valid_times samples) -> x = c).
  { intros x Hx. apply valid_times_positive in Hx. now apply Hc. }
  assert (Hne : valid_times samples <> []).
  { destruct (valid_times samples); [simpl in Hn; lia | congruence]. }
  destruct (@stats_of_times_cons fsqrt (valid_times samples) Hne)
    as (mn & mx & sd & E & Hmn & Hmx & _ & H2).
  unfold compute_stats. rewrite E, (H2 Hn).
  rewrite (mean_constant Hne Hall), (sample_variance_constant Hne Hall).
  rewrite (Hall mn (proj1 Hmn)), (Hall mx (proj1 Hmx)).
  replace (fsqrt (Q2Qc 0)) with (Q2Qc 0); [reflexivity|].
  symmetry. rewrite <- (Qcmult_0_l (Q2Qc 0)) at 1.
  apply Hsq. apply Qcle_refl.
Qed.

Lemma compute_stats_equal_samples_witness :
  compute_stats Instance.qsqrt [Some (Q2Qc 5); None; Some (Q2Qc 5)]
  = Ok (mk_stats (Fin (Q2Qc 5)) (Fin (Q2Qc 5)) (Fin (Q2Qc 5))
                 (Fin (Q2Qc 0)) 2).
Proof.
  apply (@compute_stats_equal_samples Instance.qsqrt
           [Some (Q2Qc 5); None; Some (Q2Qc 5)] (Q2Qc 5) qsqrt_exact).
  - vm_compute. lia.
  - intros x [H|[H|[H|[]]]] _; congruence.
Defined.

Lemma elapsed_sign (t_start t_end : Qc) :
  ((Q2Qc 0 < (t_end - t_start) * Q2Qc 1000)%Qc <-> (t_start < t_end)%Qc)
  /\ ((t_start <= t_end)%Qc -> (Q2Qc 0 <= (t_end - t_start) * Q2Qc 1000)%Qc).
Proof.
  assert (K : (Q2Qc 0 < Q2Qc 1000)%Qc) by (vm_compute; reflexivity).
  split; [split; intro H|intro H].
  - apply Qclt_minus_iff.
    destruct (Qclt_le_dec (Q2Qc 0) (t_end + - t_start)) as [Hp|Hn]; auto.
    exfalso. apply (Qclt_not_le _ _ H).
    pose proof (Qcmult_le_compat_r _ _ _ Hn (Qclt_le_weak _ _ K)) as B.
    now rewrite Qcmult_0_l in B.
  - apply Qclt_minus_iff in H. now apply Qcmult_pos.
  - apply Qcle_minus_iff in H.
    apply Qcmult_nonneg; [exact H | now apply Qclt_le_weak].
Qed.

(** X3.  One trial, whatever its query does, ends without an exception,
    prints one progress line and appends exactly one sample to the list of
    its resolver and domain.  The sample of a query that raised is the
    failure marker; the sample of an answered query is the elapsed time in
    milliseconds, which passes the filter of the statistics exactly when
    the clock has advanced between its two readings. *)
Theorem trial_records_one_sample (World : Type)
  (resolve : World -> string -> string -> outcome * World)
  (name ip d : string) (k : nat) (s : state World)
  (inner : pydict (list sample)) (l : list sample) :
  dict_get name (st_results s) = Some inner ->
  dict_get d inner = Some l ->
  exists x s',
    trial_body resolve name ip d k s = (Ok tt, s')
    /\ samples_at (st_results s') name d = l ++ [x]
    /\ (forall n' d', (n', d') <> (name, d) ->
          samples_at (st_results s') n' d' = samples_at (st_results s) n' d')
    /\ List.length (st_log s') = S (List.length (st_log s))
    /\ st_world s' = snd (resolve (st_world s) ip d)
    /\ match fst (resolve (st_world s) ip d) with
       | Answered t_start t_end =>
           x = Some ((t_end - t_start) * Q2Qc 1000)%Qc
           /\ (is_valid x = true <-> (t_start < t_end)%Qc)
       | Raised e => x = None /\ is_valid x = false
       end.
Proof.
  intros Hn Hd. eexists. eexists.
  split; [apply (@trial_body_ok World resolve name ip d k s inner l Hn Hd)|].
  cbn [st_results st_log st_world].
  split; [|split; [|split; [|split]]].
  - unfold samples_at. now rewrite !dict_get_set_same.
  - intros n' d' Hne. unfold samples_at.
    destruct (string_dec name n') as [<-|Hn'].
    + rewrite dict_get_set_same, Hn.
      rewrite dict_get_set_other; [reflexivity|]. congruence.
    + now rewrite dict_get_set_other.
  - rewrite length_app. cbn. lia.
  - reflexivity.
  - destruct (resolve (st_world s) ip d) as [[t0 t1|e] w]; cbn.
    + split; [reflexivity|]. rewrite Qcltb_lt. apply elapsed_sign.
    + auto.
Qed.

Lemma trial_records_one_sample_witness :
  exists x s',
    trial_body Instance.play "B" "192.0.2.2" "y.example" 2
      (mk_state [Raised "NXDOMAIN"]
                [("B", [("y.example", [Some (Q2Qc 25)])])] [])
    = (Ok tt, s')
    /\ samples_at (st_results s') "B" "y.example" = [Some (Q2Qc 25)] ++ [x].
Proof.
  destruct (@trial_records_one_sample _ Instance.play "B" "192.0.2.2"
              "y.example" 2
              (mk_state [Raised "NXDOMAIN"]
                        [("B", [("y.example", [Some (Q2Qc 25)])])] [])
              [("y.example", [Some (Q2Qc 25)])] [Some (Q2Qc 25)]
              eq_refl eq_refl)
    as (x & s' & E & H & _).
  exists x, s'. auto.
Defined.

(* ------------------------------------------------------------------ *)
(** ** When the report is printed *)







(* ------------------------------------------------------------------ *)
(** ** The tables of the report *)

Lemma append_assoc (a b c : string) :
  ((a ++ b) ++ c)%string = (a ++ (b ++ c))%string.
Proof. induction a as [|x a IH]; cbn; [reflexivity | now rewrite IH]. Qed.

Lemma point_suffix_not_NA (a : string) (c1 c2 : ascii) :
  (a ++ String "." (String c1 (String c2 EmptyString)))%string <> NA.
Proof.
  unfold NA. destruct a as [|x1 [|x2 [|x3 [|x4 a]]]]; cbn; intro H;
    inversion H.
Qed.

(** A formatted number is never the text N/A. *)
Lemma fmt2_not_NA (x : pyfloat) : fmt2 x <> NA.
Proof.
  destruct x as [q| |]; [|discriminate|discriminate].
  unfold fmt2. cbv zeta.
  set (sign := if Qcltb q (Q2Qc 0) then "-" else "").
  set (digits := str_of_N _).
  change ("." ++ ?t)%string with (String "." t).
  rewrite <- append_assoc. apply point_suffix_not_NA.
Qed.

Lemma numeric_row_not_NA (label : string) (st : stats) :
  row_avg (numeric_row label st) <> NA
  /\ row_min (numeric_row label st) <> NA
  /\ row_max (numeric_row label st) <> NA
  /\ row_std (numeric_row label st) <> NA.
Proof. cbn. repeat split; apply fmt2_not_NA. Qed.

Lemma map_fst_enumerate (A : Type) (l : list A) (start : nat) :
  map fst (enumerate start l) = seq start (List.length l).
Proof.
  revert start. induction l as [|x l IH]; intro start; [reflexivity|].
  cbn [enumerate map fst List.length seq]. now rewrite IH.
Qed.

(** The lines of the overall table in the report of a populated table. *)
Lemma report_overall_rows (fsqrt : Qc -> Qc) (results : results_table)
  (rs : pydict string) (ds : list string) (out : report_out) :
  dict_wf rs -> populated results (keys rs) ds ->
  report fsqrt results rs ds = Ok out ->
  rep_overall_rows out
  = map (fun n => numeric_row n (resolver_stats fsqrt results ds n)) (keys rs).
Proof.
  intros Hwf Hp E. unfold report in E.
  rewrite (@overall_loop_ok fsqrt results ds (keys rs) [] []) in E;
    [|exact Hwf | intros n _ [] | exact Hp].
  cbn [rbind app fst snd] in E.
  destruct (breakdown fsqrt results (keys rs) ds) as [bd'|e];
    [|discriminate].
  cbn [rbind] in E.
  destruct (for_rows _ _) as [rows|e] in E; [|discriminate].
  cbn [rbind] in E.
  destruct (verdict _ _) as [v'|e] in E; [|discriminate].
  cbn [rbind] in E. inversion E. reflexivity.
Qed.

(** X5.  The overall table has one line per resolver, in declaration
    order.  The ranking table numbers its lines 1, 2, ... without gaps,
    lists the resolvers in ranking order, and the line of a resolver shows
    the same four cells as its line in the overall table; no cell of the
    ranking table ever reads N/A. *)
Theorem ranking_table_lines (fsqrt : Qc -> Qc) (results : results_table)
  (rs : pydict string) (ds : list string) :
  dict_wf rs -> populated results (keys rs) ds ->
  exists out,
    report fsqrt results rs ds = Ok out
    /\ map row_label (rep_overall_rows out) = keys rs
    /\ map fst (rep_ranking_rows out) = seq 1 (List.length rs)
    /\ map row_label (map snd (rep_ranking_rows out))
       = map fst (rep_sorted_resolvers out)
    /\ Permutation (map snd (rep_ranking_rows out)) (rep_overall_rows out)
    /\ (forall rank r, In (rank, r) (rep_ranking_rows out) ->
          row_avg r <> NA /\ row_min r <> NA
          /\ row_max r <> NA /\ row_std r <> NA).
Proof.
  intros Hwf Hp.
  destruct (report_ok fsqrt Hwf Hp) as (ov_rows & bd & v & E & _).
  pose proof (@report_overall_rows fsqrt results rs ds _ Hwf Hp E) as Eov.
  eexists. split; [exact E|]. rewrite Eov.
  cbn [rep_ranking_rows rep_sorted_resolvers].
  set (st_of := resolver_stats fsqrt results ds).
  set (ranking := map (fun n => (n, ranking_key (st_of n))) (keys rs)).
  set (line := fun n => numeric_row n (st_of n)).
  assert (Hrows : map snd
            (map (fun it : nat * (string * pyfloat) =>
                    (fst it, numeric_row (fst (snd it)) (st_of (fst (snd it)))))
                 (enumerate 1 (py_sorted snd ranking)))
          = map line (map fst (py_sorted snd ranking))).
  { rewrite !map_map. cbn [snd].
    rewrite <- (map_snd_enumerate (py_sorted snd ranking) 1) at 2.
    rewrite map_map. reflexivity. }
  split; [|split; [|split; [|split]]].
  - rewrite map_map. cbn [row_label numeric_row]. apply map_id.
  - rewrite map_map. cbn [fst].
    change (map (fun x : nat * (string * pyfloat) => fst x)
              (enumerate 1 (py_sorted snd ranking)))
      with (map fst (enumerate 1 (py_sorted snd ranking))).
    rewrite map_fst_enumerate. f_equal.
    rewrite (Permutation_length (py_sorted_perm snd ranking)).
    unfold ranking, keys. now rewrite !length_map.
  - rewrite Hrows, map_map. cbn [row_label numeric_row line].
    apply map_id.
  - rewrite Hrows. apply Permutation_map.
    replace (keys rs) with (map fst ranking)
      by (unfold ranking; rewrite map_map; apply map_id).
    apply Permutation_map. apply py_sorted_perm.
  - intros rank r Hin. apply in_map_iff in Hin.
    destruct Hin as (it & Eit & _). inversion Eit; subst.
    apply numeric_row_not_NA.
Qed.

Lemma ranking_table_lines_witness :
  exists out,
    report Instance.qsqrt Instance.table12 Instance.rs3 Instance.ds2 = Ok out
    /\ map fst (rep_ranking_rows out) = [1; 2; 3]%nat
    /\ Permutation (map snd (rep_ranking_rows out)) (rep_overall_rows out).
Proof.
  destruct (@ranking_table_lines Instance.qsqrt Instance.table12 Instance.rs3
              Instance.ds2 rs3_wf table12_populated)
    as (out & E & _ & Hr & _ & Hperm & _).
  exists out. auto.
Defined.

Lemma domain_row_line (fsqrt : Qc -> Qc) (results : results_table)
  (name domain : string) :
  populated results [name] [domain] ->
  domain_row fsqrt results name domain
  = Ok (domain_line fsqrt results name domain).
Proof.
  intro Hp. destruct (Hp name domain) as (inner & l & Hn & Hd);
    [now left | now left |].
  unfold domain_line, samples_at. rewrite Hn, Hd.
  destruct (valid_times l) as [|x times] eqn:E.
  - unfold domain_row, lookup. rewrite Hn. cbn [rbind]. rewrite Hd.
    cbn [rbind]. rewrite E. reflexivity.
  - destruct (stats_of_times_total fsqrt (x :: times)) as [st Est].
    rewrite Est. cbn [stats_or_nan].
    apply (@domain_row_stats fsqrt results name domain inner l st Hn Hd).
    + rewrite E. discriminate.
    + now rewrite E.
Qed.

Lemma breakdown_ok (fsqrt : Qc -> Qc) (results : results_table)
  (names ds : list string) :
  populated results names ds ->
  breakdown fsqrt results names ds
  = Ok (map (fun n => (n, map (domain_line fsqrt results n) ds)) names).
Proof.
  intro Hp. unfold breakdown. apply for_rows_map. intros n Hn.
  rewrite (@for_rows_map _ _ (domain_row fsqrt results n)
             (domain_line fsqrt results n) ds).
  - reflexivity.
  - intros d Hd. apply domain_row_line.
    intros n' d' [<-|[]] [<-|[]]. now apply Hp.
Qed.

Lemma report_breakdown (fsqrt : Qc -> Qc) (results : results_table)
  (rs : pydict string) (ds : list string) (out : report_out) :
  dict_wf rs -> populated results (keys rs) ds ->
  report fsqrt results rs ds = Ok out ->
  rep_breakdown out
  = map (fun n => (n, map (domain_line fsqrt results n) ds)) (keys rs).
Proof.
  intros Hwf Hp E. unfold report in E.
  rewrite (@overall_loop_ok fsqrt results ds (keys rs) [] []) in E;
    [|exact Hwf | intros n _ [] | exact Hp].
  cbn [rbind app fst snd] in E. rewrite (breakdown_ok fsqrt Hp) in E.
  cbn [rbind] in E.
  destruct (for_rows _ _) as [rows|e] in E; [|discriminate].
  cbn [rbind] in E.
  destruct (verdict _ _) as [v'|e] in E; [|discriminate].
  cbn [rbind] in E. inversion E. reflexivity.
Qed.

Lemma domain_line_label (fsqrt : Qc -> Qc) (results : results_table)
  (n d : string) : row_label (domain_line fsqrt results n d) = d.
Proof.
  unfold domain_line. now destruct (valid_times (samples_at results n d)).
Qed.

Lemma domain_line_NA (fsqrt : Qc -> Qc) (results : results_table)
  (n d : string) :
  row_avg (domain_line fsqrt results n d) = NA
  <-> valid_times (samples_at results n d) = [].
Proof.
  unfold domain_line.
  destruct (valid_times (samples_at results n d)) as [|x l].
  - split; reflexivity.
  - split; [|discriminate]. intro H. exfalso.
    exact (proj1 (numeric_row_not_NA _ _) H).
Qed.

Lemma flat_map_nil_iff (A B : Type) (f : A -> list B) (l : list A) :
  flat_map f l = [] <-> forall x, In x l -> f x = [].
Proof.
  split; [|apply flat_map_nil].
  induction l as [|y l IH]; intros H x Hx; [contradiction|].
  cbn [flat_map] in H. apply app_eq_nil in H. destruct H as [H1 H2].
  destruct Hx as [<-|Hx]; auto.
Qed.

(** X6.  The breakdown has one block per resolver, in declaration order,
    and in each block one line per domain, in order.  A line reads N/A
    exactly when the domain has no valid sample; a resolver has no data
    (and ranks at infinity) exactly when every line of its block reads N/A;
    and the count of its overall statistics is the sum of the numbers of
    valid samples of its domains. *)
Theorem breakdown_lines (fsqrt : Qc -> Qc) (results : results_table)
  (rs : pydict string) (ds : list string) :
  dict_wf rs -> populated results (keys rs) ds ->
  exists out,
    report fsqrt results rs ds = Ok out
    /\ map fst (rep_breakdown out) = keys rs
    /\ (forall n rows, In (n, rows) (rep_breakdown out) ->
          map row_label rows = ds
          /\ (forall r, In r rows ->
                (row_avg r = NA
                 <-> valid_times (samples_at results n (row_label r)) = []))
          /\ (no_data results ds n = true
              <-> forall r, In r rows -> row_avg r = NA))
    /\ (forall n st, In (n, st) (rep_overall_stats out) ->
          count st
          = list_sum (map (fun d => List.length
                                      (valid_times (samples_at results n d)))
                          ds)).
Proof.
  intros Hwf Hp.
  destruct (report_ok fsqrt Hwf Hp) as (ov_rows & bd & v & E & _).
  pose proof (@report_breakdown fsqrt results rs ds _ Hwf Hp E) as Ebd.
  eexists. split; [exact E|]. rewrite Ebd. cbn [rep_overall_stats].
  split; [|split].
  - rewrite map_map. cbn [fst]. apply map_id.
  - intros n rows Hin. apply in_map_iff in Hin.
    destruct Hin as (n' & En & _). inversion En; subst n' rows.
    split; [|split].
    + rewrite map_map. erewrite map_ext; [apply map_id|].
      intro d. apply domain_line_label.
    + intros r Hr. apply in_map_iff in Hr. destruct Hr as (d & <- & _).
      rewrite domain_line_label. apply domain_line_NA.
    + rewrite no_data_nil. unfold resolver_times. rewrite flat_map_nil_iff.
      split.
      * intros H r Hr. apply in_map_iff in Hr. destruct Hr as (d & <- & Hd).
        apply domain_line_NA. now apply H.
      * intros H d Hd. apply (domain_line_NA fsqrt). apply H.
        now apply in_map.
  - intros n st Hin. apply in_map_iff in Hin.
    destruct Hin as (n' & En & _). inversion En; subst n' st.
    rewrite (stats_count fsqrt _ (resolver_stats_eq fsqrt results ds n)).
    unfold resolver_times. apply length_flat_map.
Qed.

Lemma breakdown_lines_witness :
  exists out,
    report Instance.qsqrt Instance.table12 Instance.rs3 Instance.ds2 = Ok out
    /\ map fst (rep_breakdown out) = keys Instance.rs3.
Proof.
  destruct (@breakdown_lines Instance.qsqrt Instance.table12 Instance.rs3
              Instance.ds2 rs3_wf table12_populated) as (out & E & H & _).
  exists out. auto.
Defined.

(* ------------------------------------------------------------------ *)
(** ** The keys of the ranking *)

Lemma filter_head_split (A : Type) (p : A -> bool) (l : list A) (x : A)
  (t : list A) :
  filter p l = x :: t ->
  exists pre post,
    l = pre ++ x :: post /\ forall y, In y pre -> p y = false.
Proof.
  induction l as [|y l IH]; [discriminate|]. cbn [filter].
  destruct (p y) eqn:E.
  - intro H. inversion H; subst. exists [], l. split; [reflexivity|].
    intros z [].
  - intro H. destruct (IH H) as (pre & post & -> & Hpre).
    exists (y :: pre), post. split; [reflexivity|].
    intros z [<-|Hz]; auto.
Qed.

Lemma fle_not_feq_flt (a b : pyfloat) :
  fle a b = true -> feq b a = false -> flt a b = true.
Proof.
  destruct a as [x| |], b as [y| |]; cbn; try congruence.
  intros Hle Hne. apply Qle_bool_iff in Hle. apply Qcltb_lt.
  destruct (Qcle_lt_or_eq _ _ Hle) as [H|H]; [exact H|].
  subst. exfalso. unfold Qceqb in Hne.
  rewrite (proj2 (Qeq_bool_iff y y)) in Hne by reflexivity. discriminate.
Qed.

Lemma resolver_times_positive (results : results_table) (ds : list string)
  (n : string) (x : Qc) :
  In x (resolver_times results ds n) -> (Q2Qc 0 < x)%Qc.
Proof.
  unfold resolver_times. intro H. apply in_flat_map in H.
  destruct H as (d & _ & H). now apply valid_times_positive in H.
Qed.

(** X7.  A ranking key is never not-a-number: it is positive infinity or
    a positive finite average, so any two keys are comparable by the [<]
    and [==] that sorting uses.  The first resolver of the ranking has the
    least key and, among the resolvers with that key, it is the one
    declared first. *)
Theorem ranking_keys_and_ties (fsqrt : Qc -> Qc) (results : results_table)
  (rs : pydict string) (ds : list string) :
  dict_wf rs -> populated results (keys rs) ds ->
  exists out,
    report fsqrt results rs ds = Ok out
    /\ (forall n k, In (n, k) (rep_ranking_stats out) ->
          k = PInf \/ exists a, k = Fin a /\ (Q2Qc 0 < a)%Qc)
    /\ (forall n1 k1 n2 k2,
          In (n1, k1) (rep_ranking_stats out) ->
          In (n2, k2) (rep_ranking_stats out) ->
          flt k1 k2 = true \/ feq k1 k2 = true \/ flt k2 k1 = true)
    /\ (forall best kb rest,
          rep_sorted_resolvers out = (best, kb) :: rest ->
          exists pre post,
            rep_ranking_stats out = pre ++ (best, kb) :: post
            /\ (forall n k, In (n, k) pre -> flt kb k = true)
            /\ (forall n k, In (n, k) post -> fle kb k = true)).
Proof.
  intros Hwf Hp.
  destruct (report_ok fsqrt Hwf Hp) as (ov_rows & bd & v & E & _).
  eexists. split; [exact E|].
  cbn [rep_ranking_stats rep_sorted_resolvers].
  set (st_of := resolver_stats fsqrt results ds).
  set (ranking := map (fun n => (n, ranking_key (st_of n))) (keys rs)).
  assert (Hkey : forall n k, In (n, k) ranking ->
            k = PInf \/ exists a, k = Fin a /\ (Q2Qc 0 < a)%Qc).
  { intros n k Hin. apply in_map_iff in Hin. destruct Hin as (n' & En & _).
    inversion En; subst n' k.
    destruct (st_of_key fsqrt results ds n) as [H1 H2].
    destruct (resolver_times results ds n) as [|x l] eqn:Et.
    - left. now apply H1.
    - right. eexists. split; [apply H2; discriminate|].
      assert (Hne : x :: l <> []) by discriminate.
      destruct (py_min_spec Hne) as (mn & _ & Hmn).
      destruct (py_max_spec Hne) as (mx & _ & Hmx).
      destruct (mean_between Hne Hmn Hmx) as [Hlo _].
      eapply Qclt_le_trans; [|exact Hlo].
      apply (@resolver_times_positive results ds n). rewrite Et.
      exact (proj1 Hmn). }
  split; [exact Hkey|]. split.
  - intros n1 k1 n2 k2 H1 H2.
    destruct (Hkey _ _ H1) as [->|(a & -> & _)];
      destruct (Hkey _ _ H2) as [->|(b & -> & _)]; cbn; auto.
    destruct (Qc_dec a b) as [[H|H]|H].
    + left. now apply Qcltb_lt.
    + right. right. now apply Qcltb_lt.
    + right. left. now apply Qceqb_eq.
  - intros best kb rest Es.
    assert (Hin : In (best, kb) ranking).
    { apply (Permutation_in _ (py_sorted_perm snd ranking)).
      rewrite Es. now left. }
    assert (Hself : feq kb kb = true).
    { destruct (Hkey _ _ Hin) as [->|(a & -> & _)]; [reflexivity|].
      now apply Qceqb_eq. }
    pose proof (py_sorted_stable snd kb ranking) as Hst.
    rewrite Es in Hst. cbn [filter snd] in Hst. rewrite Hself in Hst.
    symmetry in Hst. destruct (filter_head_split _ _ Hst)
      as (pre & post & Er & Hpre).
    exists pre, post. split; [exact Er|].
    pose proof (@head_least fsqrt results rs ds best kb rest Es) as Hleast.
    split.
    + intros n k Hnk. apply fle_not_feq_flt.
      * apply (Hleast n k). fold st_of. fold ranking. rewrite Er.
        apply in_or_app. now left.
      * exact (Hpre (n, k) Hnk).
    + intros n k Hnk. apply (Hleast n k). fold st_of. fold ranking.
      rewrite Er. apply in_or_app. right. now right.
Qed.

Lemma ranking_keys_and_ties_witness :
  exists out,
    report Instance.qsqrt Instance.table12 Instance.rs3 Instance.ds2 = Ok out
    /\ forall n k, In (n, k) (rep_ranking_stats out) ->
         k = PInf \/ exists a, k = Fin a /\ (Q2Qc 0 < a)%Qc.
Proof.
  destruct (@ranking_keys_and_ties Instance.qsqrt Instance.table12
              Instance.rs3 Instance.ds2 rs3_wf table12_populated)
    as (out & E & H & _).
  exists out. auto.
Defined.

(* ------------------------------------------------------------------ *)
(** ** Further properties of the run *)

Lemma py_sorted_all_inf (A : Type) (key : A -> pyfloat) (l : list A) :
  (forall x, In x l -> key x = PInf) -> py_sorted key l = l.
Proof.
  induction l as [|x l IH]; intro H; [reflexivity|].
  cbn [py_sorted]. rewrite IH by (intros y Hy; apply H; now right).
  destruct l as [|y l]; [reflexivity|]. cbn [insert_by].
  rewrite (H y) by (right; now left). rewrite (H x) by now left.
  reflexivity.
Qed.

Lemma matrix_no_trials (rs : pydict string) (ds : list string)
  (trials : nat) :
  trials = 0%nat \/ ds = [] ->
  matrix rs ds trials = [] /\ queries rs ds trials = [].
Proof.
  intro H. unfold matrix, queries. split; apply flat_map_nil; intros item _.
  - destruct H as [-> | ->]; [|reflexivity].
    apply flat_map_nil. reflexivity.
  - destruct H as [-> | ->]; [|reflexivity].
    apply flat_map_nil. reflexivity.
Qed.

(** X8.  With no trial to run (a trial count of 0, or no domain) the
    script asks no query and prints no progress line, and still prints its
    report: every resolver ranks at infinity, in declaration order, and the
    verdict is the no-data message. *)
Theorem program_without_trials (fsqrt : Qc -> Qc) (World : Type)
  (resolve : World -> string -> string -> outcome * World)
  (rs : pydict string) (ds : list string) (trials : nat) (w : World) :
  dict_wf rs -> trials = 0%nat \/ ds = [] ->
  exists s' out,
    run_benchmark resolve rs ds trials (mk_state w [] []) = (Ok tt, s')
    /\ st_log s' = [] /\ st_world s' = w
    /\ program fsqrt resolve rs ds trials w = Ok out
    /\ rep_sorted_resolvers out = map (fun n => (n, PInf)) (keys rs)
    /\ rep_verdict out = no_data_message.
Proof.
  intros Hwf H0.
  destruct (run_benchmark_ok resolve rs ds trials (mk_state w [] []))
    as (evs & results' & E & Hk & _ & _ & Q1 & _).
  destruct (matrix_no_trials rs H0) as [Hm Hq].
  rewrite Hm in Hk. apply map_eq_nil in Hk. subst evs.
  rewrite Hq in E. cbn [outcomes snd st_world st_log app] in E.
  assert (Hp : populated results' (keys rs) ds).
  { intros n d Hn Hd. destruct (Q1 n d Hn Hd) as (i & l & ? & ? & _). eauto. }
  assert (Hnd : forall n, In n (keys rs) ->
                  resolver_times results' ds n = []).
  { intros n Hn. unfold resolver_times. apply flat_map_nil. intros d Hd.
    destruct H0 as [-> | ->]; [|contradiction].
    destruct (Q1 n d Hn Hd) as (i & l & Hi & Hl & Hlen).
    unfold samples_at. rewrite Hi, Hl.
    destruct l; [reflexivity | discriminate]. }
  destruct (report_ok fsqrt Hwf Hp) as (ov_rows & bd & v & Er & Ev).
  assert (Hkeys : forall e,
    In e (map (fun n => (n, ranking_key (resolver_stats fsqrt results' ds n)))
              (keys rs)) -> snd e = PInf).
  { intros e He. apply in_map_iff in He. destruct He as (n & <- & Hn).
    cbn [snd]. apply (st_of_key fsqrt results' ds n). now apply Hnd. }
  eexists. eexists. split; [exact E|]. cbn [st_log st_world].
  split; [reflexivity|]. split; [reflexivity|]. split.
  { unfold program. rewrite E. cbn [rbind]. exact Er. }
  cbn [rep_sorted_resolvers rep_verdict]. split.
  - rewrite (py_sorted_all_inf snd _ Hkeys). apply map_ext_in.
    intros n Hn. f_equal.
    apply (st_of_key fsqrt results' ds n). now apply Hnd.
  - apply (verdict_spec fsqrt results' rs ds Ev).
    intros n k Hin. exact (Hkeys (n, k) Hin).
Qed.

Lemma program_without_trials_witness :
  exists s' out,
    run_benchmark Instance.play Instance.rs3 Instance.ds2 0
      (mk_state Instance.w12 [] []) = (Ok tt, s')
    /\ st_log s' = [] /\ st_world s' = Instance.w12
    /\ program Instance.qsqrt Instance.play Instance.rs3 Instance.ds2 0
         Instance.w12 = Ok out
    /\ rep_verdict out = no_data_message.
Proof.
  destruct (@program_without_trials Instance.qsqrt _ Instance.play
              Instance.rs3 Instance.ds2 0 Instance.w12 rs3_wf
              (or_introl eq_refl))
    as (s' & out & E & Hl & Hw & Ep & _ & Hv).
  exists s', out. auto.
Defined.

Lemma domains_of_matrix (rs : pydict string) (ds : list string) (trials : nat)
  (evs : list event) :
  map ev_key evs = matrix rs ds trials ->
  Forall (fun ev => In (ev_domain ev) ds) evs.
Proof.
  intro H. apply Forall_forall. intros ev Hin.
  apply (in_map ev_key) in Hin. rewrite H in Hin.
  unfold matrix in Hin. apply in_flat_map in Hin.
  destruct Hin as (item & _ & Hin).
  apply in_flat_map in Hin. destruct Hin as (d & Hd & Hin).
  apply in_map_iff in Hin. destruct Hin as (k & E & _).
  unfold ev_key in E. inversion E. subst. exact Hd.
Qed.

(** X9.  The verdict is the no-data message exactly when no progress line
    of the run reports an elapsed time above 0 ms; as soon as one query is
    answered in more than 0 ms, the verdict names a resolver of the
    configuration. *)
Theorem verdict_reflects_run (fsqrt : Qc -> Qc) (World : Type)
  (resolve : World -> string -> string -> outcome * World)
  (rs : pydict string) (ds : list string) (trials : nat) (w : World) :
  dict_wf rs -> NoDup ds ->
  exists s' out,
    run_benchmark resolve rs ds trials (mk_state w [] []) = (Ok tt, s')
    /\ program fsqrt resolve rs ds trials w = Ok out
    /\ (rep_verdict out = no_data_message
        <-> forall ev, In ev (st_log s') -> is_valid (ev_sample ev) = false)
    /\ ((exists ev, In ev (st_log s') /\ is_valid (ev_sample ev) = true) ->
        exists best a,
          In best (keys rs) /\ (Q2Qc 0 < a)%Qc
          /\ rep_verdict out = verdict_message best (Fin a)).
Proof.
  intros Hwf Hnd.
  destruct (run_benchmark_ok resolve rs ds trials (mk_state w [] []))
    as (evs & results' & E & Hk & _ & _ & Q1 & Q3).
  cbn [st_log app] in E.
  assert (Hp : populated results' (keys rs) ds).
  { intros n d Hn Hd. destruct (Q1 n d Hn Hd) as (i & l & ? & ? & _). eauto. }
  destruct (report_ok fsqrt Hwf Hp) as (ov_rows & bd & v & Er & Ev).
  destruct (verdict_spec fsqrt results' rs ds Ev) as [V1 V2].
  pose proof (keys_of_matrix _ _ _ _ Hk) as Hres.
  pose proof (domains_of_matrix _ _ _ _ Hk) as Hdom.
  rewrite Forall_forall in Hres, Hdom.
  assert (Hiff : (forall n k,
     In (n, k) (map (fun n => (n, ranking_key
                                    (resolver_stats fsqrt results' ds n)))
                    (keys rs)) -> k = PInf)
     <-> forall ev, In ev evs -> is_valid (ev_sample ev) = false).
  { split.
    - intros Hall ev Hev.
      assert (Hn := Hres ev Hev). assert (Hd := Hdom ev Hev).
      assert (Hkey : ranking_key (resolver_stats fsqrt results' ds
                                    (ev_resolver ev)) = PInf).
      { apply (Hall (ev_resolver ev)). apply in_map_iff. eauto. }
      apply feq_PInf in Hkey. rewrite key_PInf_no_data in Hkey.
      apply no_data_nil in Hkey. unfold resolver_times in Hkey.
      rewrite flat_map_nil_iff in Hkey. specialize (Hkey _ Hd).
      rewrite (Q3 Hwf Hnd _ _ Hn Hd) in Hkey.
      apply valid_times_dropped in Hkey. rewrite Forall_forall in Hkey.
      apply dropped_invalid. apply Hkey. apply in_map. apply filter_In.
      split; [exact Hev|]. unfold ev_at. now rewrite !String.eqb_refl.
    - intros Hall n k Hin. apply in_map_iff in Hin.
      destruct Hin as (n' & En & Hn). inversion En; subst n' k.
      apply feq_PInf. rewrite key_PInf_no_data. apply no_data_nil.
      unfold resolver_times. apply flat_map_nil_iff. intros d Hd.
      rewrite (Q3 Hwf Hnd _ _ Hn Hd). apply valid_times_dropped.
      apply Forall_forall. intros x Hx. apply in_map_iff in Hx.
      destruct Hx as (ev & <- & Hev). apply filter_In in Hev.
      apply dropped_invalid. apply Hall. tauto. }
  eexists. eexists. split; [exact E|]. split.
  { unfold program. rewrite E. cbn [rbind]. exact Er. }
  cbn [rep_verdict st_log]. split.
  - rewrite V2. exact Hiff.
  - intros (ev & Hev & Hvalid).
    destruct V1 as (best & a & rest & Es & Hb & Ha & Hv & _).
    + destruct (in_dec string_dec (ev_resolver ev) (keys rs)) as [Hn|Hn];
        [|exfalso; exact (Hn (Hres ev Hev))].
      exists (ev_resolver ev),
        (ranking_key (resolver_stats fsqrt results' ds (ev_resolver ev))).
      split; [apply in_map_iff; eauto|].
      intro Hinf.
      apply feq_PInf in Hinf. rewrite key_PInf_no_data in Hinf.
      apply no_data_nil in Hinf. unfold resolver_times in Hinf.
      rewrite flat_map_nil_iff in Hinf.
      specialize (Hinf _ (Hdom ev Hev)).
      rewrite (Q3 Hwf Hnd _ _ Hn (Hdom ev Hev)) in Hinf.
      apply valid_times_dropped in Hinf. rewrite Forall_forall in Hinf.
      assert (Hdrop : dropped (ev_sample ev)).
      { apply Hinf. apply in_map. apply filter_In.
        split; [exact Hev|]. unfold ev_at. now rewrite !String.eqb_refl. }
      apply dropped_invalid in Hdrop. congruence.
    + exists best, a. split; [exact Hb|]. split; [|exact Hv].
      assert (Hin : In (best, Fin a)
                (map (fun n => (n, ranking_key
                                     (resolver_stats fsqrt results' ds n)))
                     (keys rs))).
      { apply (Permutation_in _ (py_sorted_perm snd _)).
        rewrite Es. now left. }
      apply in_map_iff in Hin. destruct Hin as (n' & En & _).
      inversion En as [[En1 En2]]. subst n'.
      destruct (st_of_key fsqrt results' ds best) as [H1 H2].
      destruct (resolver_times results' ds best) as [|x l] eqn:Et.
      * rewrite H1 in En2 by reflexivity. discriminate.
      * rewrite H2 in En2 by discriminate. inversion En2; subst a.
        assert (Hne : x :: l <> []) by discriminate.
        destruct (py_min_spec Hne) as (mn & _ & Hmn).
        destruct (py_max_spec Hne) as (mx & _ & Hmx).
        destruct (mean_between Hne Hmn Hmx) as [Hlo _].
        eapply Qclt_le_trans; [|exact Hlo].
        apply (@resolver_times_positive results' ds best). rewrite Et.
        exact (proj1 Hmn).
Qed.

Lemma verdict_reflects_run_witness :
  exists s' out,
    run_benchmark Instance.play Instance.rs3 Instance.ds2 2
      (mk_state Instance.w12 [] []) = (Ok tt, s')
    /\ program Instance.qsqrt Instance.play Instance.rs3 Instance.ds2 2
         Instance.w12 = Ok out
    /\ (rep_verdict out = no_data_message
        <-> forall ev, In ev (st_log s') -> is_valid (ev_sample ev) = false).
Proof.
  destruct (@verdict_reflects_run Instance.qsqrt _ Instance.play Instance.rs3
              Instance.ds2 2 Instance.w12 rs3_wf)
    as (s' & out & E & Ep & H & _).
  - repeat constructor; cbn [In]; intuition discriminate.
  - exists s', out. auto.
Defined.




Lemma length_outcomes (World : Type)
  (resolve : World -> string -> string -> outcome * World)
  (w : World) (qs : list (string * string)) :
  List.length (fst (outcomes resolve w qs)) = List.length qs.
Proof.
  revert w. induction qs as [|[ip d] qs IH]; intro w; [reflexivity|].
  cbn [outcomes]. destruct (resolve w ip d) as [o w1].
  specialize (IH w1). destruct (outcomes resolve w1 qs) as [os w2].
  cbn [fst List.length] in *. now rewrite IH.
Qed.



(** The script as configured asks 9 x 31 x 3 = 837 queries. *)
Example queries_as_configured :
  List.length (queries resolvers domains num_trials) = 837%nat.
Proof. reflexivity. Qed.

(* ------------------------------------------------------------------ *)
(** ** The printed lines *)









(** The names and domains of the configuration fit their columns. *)
Lemma configuration_fits :
  Forall (fun n => (String.length n <= 30)%nat) (keys resolvers)
  /\ Forall (fun d => (String.length d <= 20)%nat) domains.
Proof. split; repeat constructor; cbn; lia. Qed.
